(** * Omi-to-WebDAV sync service (sync.py)

    A shallow embedding of the reconciliation engine of [sync.py]:
    change detection by content hash, filename allocation, rename versus
    regeneration, metadata-preserving upload and the deletion sweep.

    Conventions of the model.
    - Python [str] values are [string]; a key that the code reads with
      [d.get(k, "")] is a [string] field whose empty value stands for the
      missing key.
    - Python dictionaries used as maps are [gmap string _].
    - The libraries the program calls (xxhash over canonical JSON,
      unicodedata, pathvalidate, datetime.fromisoformat, python-frontmatter)
      are fields of the class [Platform]; the WebDAV server is a concrete
      store inside [world], together with a schedule of injected faults.
    - Code that performs I/O runs in the monad [io]: a function of the
      world that may raise and that returns the events it issued.  Every
      Store call, every logger call and the entry into [handle_deletions]
      and [sync_conversation] is such an event, so that statements about
      which operations were issued, and in which order, are statements
      about that list. *)

From Stdlib Require Import Ascii String.
From stdpp Require Import gmap strings list fin_maps pretty.

Open Scope string_scope.
Open Scope list_scope.
Open Scope stdpp_scope.

(** ** String helpers (Python [str] methods used by the program) *)

(** [str.isspace] on the ASCII range: TAB..CR, FS..US and SPACE. *)
Definition is_space (a : ascii) : bool :=
  let n := nat_of_ascii a in
  ((9 <=? n)%nat && (n <=? 13)%nat) || ((28 <=? n)%nat && (n <=? 32)%nat).

Fixpoint lstrip (s : string) : string :=
  match s with
  | EmptyString => EmptyString
  | String a s' => if is_space a then lstrip s' else s
  end.

Fixpoint rstrip (s : string) : string :=
  match s with
  | EmptyString => EmptyString
  | String a s' =>
      match rstrip s' with
      | EmptyString => if is_space a then EmptyString else String a EmptyString
      | r => String a r
      end
  end.

(** [s.strip()] *)
Definition strip (s : string) : string := rstrip (lstrip s).

(** [s.replace("Z", "+00:00")] *)
Fixpoint replace_Z (s : string) : string :=
  match s with
  | EmptyString => EmptyString
  | String a s' =>
      if Ascii.eqb a "Z" then "+00:00" +:+ replace_Z s' else String a (replace_Z s')
  end.

(** ["  " in s] *)
Fixpoint has_double_space (s : string) : bool :=
  match s with
  | EmptyString => false
  | String a s' =>
      match s' with
      | EmptyString => false
      | String b _ => (Ascii.eqb a " " && Ascii.eqb b " ") || has_double_space s'
      end
  end.

(** [s.replace("  ", " ")]: non-overlapping occurrences, left to right. *)
Fixpoint replace_double_space (s : string) : string :=
  match s with
  | EmptyString => EmptyString
  | String a s' =>
      match s' with
      | EmptyString => s
      | String b s'' =>
          if Ascii.eqb a " " && Ascii.eqb b " "
          then String " " (replace_double_space s'')
          else String a (replace_double_space s')
      end
  end.

(** [while "  " in s: s = s.replace("  ", " ")].  Every round that finds
    a double space shortens the string, so [String.length s] rounds are
    enough (see [collapse_spaces_done]). *)
Fixpoint collapse_loop (fuel : nat) (s : string) : string :=
  match fuel with
  | O => s
  | S fuel' =>
      if has_double_space s then collapse_loop fuel' (replace_double_space s) else s
  end.

Definition collapse_spaces (s : string) : string :=
  collapse_loop (String.length s) s.

(** A Python string is truthy when it is not empty. *)
Definition truthy (s : string) : bool := bool_decide (s ≠ "").

(** [key.startswith("_")] *)
Definition startswith_underscore (key : string) : bool := String.prefix "_" key.

(** ** Dates *)

(** The part of a [datetime] that the program formats: the calendar date,
    and the rest of the ISO rendering (time of day and offset) kept as
    text.  Python keeps 1 <= year <= 9999, 1 <= month <= 12 and
    1 <= day <= 31. *)
Record datetime := Datetime {
  year : nat;
  month : nat;
  day : nat;
  time_part : string
}.

Definition digit (n : nat) : ascii := ascii_of_nat (48 + n mod 10).

Definition pad2 (n : nat) : string :=
  String (digit (n / 10)) (String (digit n) EmptyString).

Definition pad4 (n : nat) : string :=
  String (digit (n / 1000)) (String (digit (n / 100)) (pad2 n)).



(** [dt.strftime("%m%d%Y")] *)
Definition strftime_mdY (dt : datetime) : string :=
  pad2 (month dt) +:+ pad2 (day dt) +:+ pad4 (year dt).

(** [dt.isoformat()] *)
Definition isoformat (dt : datetime) : string :=
  pad4 (year dt) +:+ "-" +:+ pad2 (month dt) +:+ "-" +:+ pad2 (day dt) +:+ time_part dt.

(** ** Data model *)

(** One element of [transcript_segments]. *)
Record segment := Segment {
  speaker_id : nat;
  text : string
}.

(** The [structured] object of a conversation.  [None] is a missing key;
    [s_other] holds the remaining fields, which only the hash sees. *)
Record structured_t := Structured {
  s_title : option string;
  s_category : option string;
  s_overview : option string;
  s_other : list (string * string)
}.

(** A conversation as returned by the Omi API.  [id] and [created_at] are
    read with [.get(_, "")]. *)
Record conversation := Conversation {
  id : string;
  created_at : string;
  structured : structured_t;
  transcript_segments : list segment
}.

(** An entry of [state["conversations"]]: [{omi_hash, filename, title}],
    as [sync_conversation] writes it.  The empty string stands for a key
    that an older state file lacks (the code reads the three keys with
    [.get]); an entry is never the empty dictionary, so [if conv_state]
    asks whether there is an entry. *)
Record state_entry := StateEntry {
  omi_hash : string;
  filename : string;
  title : string
}.

(** The sync state: [{version, last_sync, conversations}]. *)
Record sync_state := SyncState {
  version : nat;
  last_sync : option string;
  conversations : gmap string state_entry
}.

(** [{"version": 1, "last_sync": None, "conversations": {}}] *)
Definition empty_state : sync_state := SyncState 1 None ∅.

Definition set_conversations (convs : gmap string state_entry) (state : sync_state)
  : sync_state :=
  SyncState (version state) (last_sync state) convs.

Definition set_last_sync (ts : string) (state : sync_state) : sync_state :=
  SyncState (version state) (Some ts) (conversations state).

(** A document as python-frontmatter sees it: metadata and body. *)
Record post := Post {
  metadata : gmap string string;
  content : string
}.

(** ** External libraries and configuration *)

Class Platform := {
  (** [OUTPUT_DIR] from the environment *)
  OUTPUT_DIR : string;
  (** [xxh64(json.dumps(content, sort_keys=True)).hexdigest()[:16]] of the
      two content fields *)
  content_digest : structured_t → list segment → string;
  (** [unicodedata.normalize("NFC", _)] *)
  normalize_nfc : string → string;
  (** [pathvalidate.sanitize_filename(_, max_len=200, replacement_text="-")] *)
  sanitize_filename : string → string;
  (** [datetime.fromisoformat]; [None] is [ValueError] *)
  fromisoformat : string → option datetime;
  (** [frontmatter.dumps] *)
  frontmatter_dumps : post → string;
  (** [frontmatter.loads] of the decoded bytes; [None] is any exception
      raised while decoding, parsing or walking the metadata *)
  frontmatter_loads : string → option post
}.

(** ** The world: WebDAV store, clock and shutdown flag *)

Inductive store_op :=
| OpExists (path : string)
| OpReadBytes (path : string)
| OpUpload (path : string) (data : string)
| OpMove (src dst : string)
| OpRemove (path : string)
| OpMkdir (path : string).

Inductive level := INFO | WARNING | ERROR.

Inductive routine :=
| Rhandle_deletions
| Rsync_conversation (conv_id : string).

Inductive event :=
| Store (op : store_op) (ok : bool)
| Enter (r : routine)
| Log (lv : level) (msg : string).

(** [faults] is consumed one flag per Store call: [true] makes that call
    raise without touching the store; an exhausted schedule means no
    further fault.  [client_ok] tells whether [WebDAVClient(...)] can be
    built, [running] is the global shutdown flag, [now] the reading of the
    clock; none of the three changes inside a cycle of the model. *)
Record world := World {
  files : gmap string string;
  dirs : gset string;
  client_ok : bool;
  faults : list bool;
  running : bool;
  now : datetime
}.

Definition set_files (fs : gmap string string) (w : world) : world :=
  World fs (dirs w) (client_ok w) (faults w) (running w) (now w).

Definition set_dirs (ds : gset string) (w : world) : world :=
  World (files w) ds (client_ok w) (faults w) (running w) (now w).

Definition set_faults (fl : list bool) (w : world) : world :=
  World (files w) (dirs w) (client_ok w) fl (running w) (now w).

(** ** The [io] monad: world passing with exceptions and a trace

    A computation returns its value ([None] when it raised), the world it
    leaves and the events it issued, oldest first. *)

Definition io (A : Type) : Type := world → option A * world * list event.

Definition io_ret {A} (a : A) : io A := λ w, (Some a, w, []).

Definition io_bind {A B} (m : io A) (k : A → io B) : io B := λ w,
  match m w with
  | (Some a, w1, evs1) => let '(r, w2, evs2) := k a w1 in (r, w2, evs1 ++ evs2)
  | (None, w1, evs1) => (None, w1, evs1)
  end.

(** [try: body except Exception: handler] *)
Definition try_except {A} (body handler : io A) : io A := λ w,
  match body w with
  | (Some a, w1, evs1) => (Some a, w1, evs1)
  | (None, w1, evs1) => let '(r, w2, evs2) := handler w1 in (r, w2, evs1 ++ evs2)
  end.

(** An exception raised by library code. *)
Definition raise {A} : io A := λ w, (None, w, []).

Definition of_option {A} (o : option A) : io A :=
  match o with
  | Some a => io_ret a
  | None => raise
  end.

Definition read_world {A} (f : world → A) : io A := λ w, (Some (f w), w, []).

Definition emit (e : event) : io unit := λ w, (Some tt, w, [e]).

(** [logger.info], [logger.warning], [logger.error]; the text of a caught
    exception is left out of the message. *)
Definition logger (lv : level) (msg : string) : io unit := emit (Log lv msg).

Global Instance io_mret : MRet io := @io_ret.
Global Instance io_mbind : MBind io := λ A B k m, io_bind m k.

(** ** The WebDAV client *)

Definition next_fault (w : world) : bool * world :=
  match faults w with
  | [] => (false, w)
  | b :: fl => (b, set_faults fl w)
  end.

(** One request: the fault schedule is consulted, then the operation runs
    on the store; the call and its outcome are traced. *)
Definition store_call {A} (op : store_op) (run : world → option (A * world)) : io A :=
  λ w,
    let '(fault, w1) := next_fault w in
    if fault then (None, w1, [Store op false])
    else match run w1 with
         | Some (a, w2) => (Some a, w2, [Store op true])
         | None => (None, w1, [Store op false])
         end.

Definition store_has (path : string) (w : world) : bool :=
  bool_decide (is_Some (files w !! path)) || bool_decide (path ∈ dirs w).

Definition webdav_exists (path : string) : io bool :=
  store_call (OpExists path) (λ w, Some (store_has path w, w)).

Definition webdav_read_bytes (path : string) : io string :=
  store_call (OpReadBytes path)
    (λ w, match files w !! path with Some d => Some (d, w) | None => None end).

(** [upload_fileobj(BytesIO(data), path, overwrite=True)] *)
Definition webdav_upload_fileobj (data path : string) : io unit :=
  store_call (OpUpload path data)
    (λ w, Some (tt, set_files (<[path := data]> (files w)) w)).

(** [move(src, dst, overwrite=True)]: the bytes of [src] become the bytes
    of [dst]. *)
Definition webdav_move (src dst : string) : io unit :=
  store_call (OpMove src dst)
    (λ w, match files w !! src with
          | Some d => Some (tt, set_files (<[dst := d]> (delete src (files w))) w)
          | None => None
          end).

Definition webdav_remove (path : string) : io unit :=
  store_call (OpRemove path)
    (λ w, if store_has path w
          then Some (tt, set_dirs (dirs w ∖ {[path]}) (set_files (delete path (files w)) w))
          else None).

Definition webdav_mkdir (path : string) : io unit :=
  store_call (OpMkdir path) (λ w, Some (tt, set_dirs ({[path]} ∪ dirs w) w)).

(** ** The program *)

Section Program.
Context `{Platform}.

Definition newline : string := String (ascii_of_nat 10) EmptyString.

(** [compute_content_hash]: only [structured] and [transcript_segments]
    reach the digest. *)
Definition compute_content_hash (conversation : conversation) : string :=
  content_digest (structured conversation) (transcript_segments conversation).

(** [sanitize_title] *)
Definition sanitize_title (title : string) : string :=
  if negb (truthy title) || negb (truthy (strip title)) then "Untitled"
  else
    let normalized := normalize_nfc (strip title) in
    let sanitized := sanitize_filename normalized in
    let sanitized := collapse_spaces sanitized in
    let sanitized := strip sanitized in
    if truthy sanitized then sanitized else "Untitled".

(** [{conv["filename"] for conv in state.get("conversations", {}).values()}] *)
Definition existing_files (state : sync_state) : gset string :=
  map_img (filename <$> conversations state).

(** The [try]/[except] of [generate_filename]: the date of [created_at],
    or of the clock when it does not parse. *)
Definition date_suffix (created_at : string) (clock : datetime) : string :=
  match fromisoformat (replace_Z created_at) with
  | Some dt => strftime_mdY dt
  | None => strftime_mdY clock
  end.

(** [generate_filename]; [clock] is what [datetime.now(timezone.utc)]
    returns. *)
Definition generate_filename (title created_at : string) (state : sync_state)
    (clock : datetime) : string :=
  let base_name := sanitize_title title in
  let filename := base_name +:+ ".md" in
  if bool_decide (filename ∉ existing_files state) then filename
  else base_name +:+ "_" +:+ date_suffix created_at clock +:+ ".md".

(** The [metadata] dictionary built by [generate_markdown]. *)
Definition build_metadata (conversation : conversation) (content_hash : string)
    (clock : datetime) : gmap string string :=
  list_to_map
    [ ("title", default "Untitled" (s_title (structured conversation)));
      ("date", created_at conversation);
      ("category", default "" (s_category (structured conversation)));
      ("_omi_id", id conversation);
      ("_content_hash", content_hash);
      ("_synced_at", isoformat clock) ].

Definition segment_line (seg : segment) : list string :=
  let text := strip (text seg) in
  if truthy text
  then ["**Speaker " +:+ pretty (speaker_id seg) +:+ ":** " +:+ text]
  else [].

(** The [body_parts] list of [generate_markdown], joined by newlines. *)
Definition build_body (conversation : conversation) : string :=
  let overview := strip (default "" (s_overview (structured conversation))) in
  let summary :=
    ["## Summary"; ""; if truthy overview then overview else "No summary available."] in
  let transcript :=
    match transcript_segments conversation with
    | [] => []
    | segs => [""; "## Transcript"; ""] ++ concat (segment_line <$> segs)
    end in
  String.concat newline (summary ++ transcript).

(** [generate_markdown] *)
Definition generate_markdown (conversation : conversation) (content_hash : string)
    (clock : datetime) : string :=
  frontmatter_dumps
    (Post (build_metadata conversation content_hash clock) (build_body conversation)).

(** The loop of lines 367-369: user keys of the existing post that the new
    post lacks are copied over. *)
Definition preserve_fields (existing new : gmap string string) : gmap string string :=
  map_fold
    (λ key value acc,
       if negb (startswith_underscore key) && bool_decide (acc !! key = None)
       then <[key := value]> acc
       else acc)
    new existing.

(** Lines 356-375: merge the front matter of the file found at
    [metadata_source_path] into the generated document. *)
Definition preserve_user_metadata (markdown_content metadata_source_path : string)
  : io string :=
  try_except
    (ex ← webdav_exists metadata_source_path;
     if ex : bool then
       existing_content ← webdav_read_bytes metadata_source_path;
       try_except
         (existing_post ← of_option (frontmatter_loads existing_content);
          new_post ← of_option (frontmatter_loads markdown_content);
          mret (frontmatter_dumps
                  (Post (preserve_fields (metadata existing_post) (metadata new_post))
                        (content new_post))))
         (logger WARNING ("Could not parse existing file " +:+ metadata_source_path);;
          mret markdown_content)
     else mret markdown_content)
    (logger WARNING ("Could not check existing file " +:+ metadata_source_path);;
     mret markdown_content).

(** [state["conversations"][conv_id] = {omi_hash, filename, title}] *)
Definition store_entry (conv_id content_hash filename current_title : string)
    (state : sync_state) : sync_state :=
  set_conversations
    (<[conv_id := StateEntry content_hash filename current_title]> (conversations state))
    state.

(** Lines 329-351: a title-only change moves the file. *)
Definition rename_only (conv_id content_hash current_title filename old_filename : string)
    (state : sync_state) : io (bool * sync_state) :=
  let remote_path := OUTPUT_DIR +:+ "/" +:+ filename in
  let old_remote_path := OUTPUT_DIR +:+ "/" +:+ old_filename in
  try_except
    (ex ← webdav_exists old_remote_path;
     (if ex : bool then
        webdav_move old_remote_path remote_path;;
        logger INFO ("Renamed: " +:+ old_filename +:+ " -> " +:+ filename)
      else
        logger WARNING ("Old file not found for rename: " +:+ old_filename));;
     mret (true, store_entry conv_id content_hash filename current_title state))
    (logger ERROR ("Failed to rename " +:+ old_filename +:+ " -> " +:+ filename);;
     mret (false, state)).

(** Lines 382-390: after a rename with new content, drop the old file. *)
Definition delete_old_file (filename : string) (old_filename : option string) : io unit :=
  match old_filename with
  | Some old =>
      if bool_decide (old ≠ filename) then
        let old_remote_path := OUTPUT_DIR +:+ "/" +:+ old in
        try_except
          (ex ← webdav_exists old_remote_path;
           if ex : bool then
             webdav_remove old_remote_path;;
             logger INFO ("Deleted old file: " +:+ old)
           else mret tt)
          (logger WARNING ("Failed to delete old file " +:+ old))
      else mret tt
  | None => mret tt
  end.

(** Lines 377-408: upload, clean up, record the entry. *)
Definition upload_and_record (conv_id content_hash current_title filename : string)
    (old_filename : option string) (conv_state : option state_entry)
    (markdown_content : string) (state : sync_state) : io (bool * sync_state) :=
  let remote_path := OUTPUT_DIR +:+ "/" +:+ filename in
  try_except
    (webdav_upload_fileobj markdown_content remote_path;;
     delete_old_file filename old_filename;;
     let action :=
       match old_filename, conv_state with
       | Some _, _ => "Renamed"
       | None, Some _ => "Updated"
       | None, None => "Created"
       end in
     logger INFO (action +:+ ": " +:+ filename);;
     mret (true, store_entry conv_id content_hash filename current_title state))
    (logger ERROR ("Failed to upload " +:+ filename);;
     mret (false, state)).

(** [title_changed] and [content_changed] of lines 289-298. *)
Definition title_changed (conv_state : option state_entry) (current_title : string) : bool :=
  match conv_state with
  | Some cs => truthy (title cs) && bool_decide (title cs ≠ current_title)
  | None => false
  end.

Definition content_changed (conv_state : option state_entry) (content_hash : string) : bool :=
  match conv_state with
  | Some cs => bool_decide (omi_hash cs ≠ content_hash)
  | None => true
  end.

(** Lines 304-325: the filename to write to, and [old_filename], which
    is set when the title changed and a filename is on record. *)
Definition determine_filename (conv_id current_title created_at : string)
    (conv_state : option state_entry) (state : sync_state) (clock : datetime)
  : string * option string :=
  match conv_state with
  | Some cs =>
      if truthy (filename cs) then
        if title_changed conv_state current_title then
          let old_filename := filename cs in
          let temp_state := set_conversations (delete conv_id (conversations state)) state in
          (generate_filename current_title created_at temp_state clock, Some old_filename)
        else (filename cs, None)
      else (generate_filename current_title created_at state clock, None)
  | None => (generate_filename current_title created_at state clock, None)
  end.

(** [structured.get("title", "Untitled")] *)
Definition current_title (conversation : conversation) : string :=
  default "Untitled" (s_title (structured conversation)).

(** Lines 353-408: generate the document, merge the metadata of the file
    at [metadata_source_path], upload. *)
Definition regenerate (conversation : conversation) (content_hash filename : string)
    (old_filename : option string) (conv_state : option state_entry)
    (state : sync_state) : io (bool * sync_state) :=
  clock ← read_world now;
  let markdown_content := generate_markdown conversation content_hash clock in
  let metadata_source_path := OUTPUT_DIR +:+ "/" +:+ default filename old_filename in
  markdown_content ← preserve_user_metadata markdown_content metadata_source_path;
  upload_and_record (id conversation) content_hash (current_title conversation) filename
    old_filename conv_state markdown_content state.

(** [sync_conversation] *)
Definition sync_conversation (conversation : conversation) (state : sync_state)
  : io (bool * sync_state) :=
  let conv_id := id conversation in
  emit (Enter (Rsync_conversation conv_id));;
  if negb (truthy conv_id) then
    logger WARNING "Conversation missing ID, skipping";;
    mret (false, state)
  else
    let current_title := current_title conversation in
    let created_at := created_at conversation in
    let content_hash := compute_content_hash conversation in
    let conv_state := conversations state !! conv_id in
    let title_changed := title_changed conv_state current_title in
    let content_changed := content_changed conv_state content_hash in
    if bool_decide (is_Some conv_state) && negb title_changed && negb content_changed
    then mret (false, state)
    else
      clock ← read_world now;
      let '(filename, old_filename) :=
        determine_filename conv_id current_title created_at conv_state state clock in
      match old_filename with
      | Some old =>
          logger INFO ("Title changed: '" +:+ from_option title "" conv_state
                       +:+ "' -> '" +:+ current_title
                       +:+ "', renaming " +:+ old +:+ " -> " +:+ filename);;
          if title_changed && negb content_changed
          then rename_only conv_id content_hash current_title filename old state
          else regenerate conversation content_hash filename old_filename conv_state state
      | None =>
          regenerate conversation content_hash filename old_filename conv_state state
      end.

(** [ensure_output_directory] *)
Definition ensure_output_directory : io bool :=
  try_except
    (ex ← webdav_exists OUTPUT_DIR;
     (if negb ex
      then webdav_mkdir OUTPUT_DIR;;
           logger INFO ("Created output directory: " +:+ OUTPUT_DIR)
      else mret tt);;
     mret true)
    (logger ERROR "Failed to create output directory";;
     mret false).

(** [del state["conversations"][conv_id]] *)
Definition drop_entry (conv_id : string) (state : sync_state) : sync_state :=
  set_conversations (delete conv_id (conversations state)) state.

(** Lines 447-461: remove the file of a conversation that is gone and
    forget its entry; on a failure the entry stays for the next cycle. *)
Definition delete_remote (conv_id filename : string) (state : sync_state)
    (deleted_count : nat) : io (nat * sync_state) :=
  let remote_path := OUTPUT_DIR +:+ "/" +:+ filename in
  try_except
    (ex ← webdav_exists remote_path;
     (if ex : bool then
        webdav_remove remote_path;;
        logger INFO ("Deleted: " +:+ filename +:+ " (conversation "
                     +:+ conv_id +:+ " removed from Omi)")
      else logger INFO ("File already gone: " +:+ filename));;
     mret (S deleted_count, drop_entry conv_id state))
    (logger ERROR ("Failed to delete " +:+ filename);;
     mret (deleted_count, state)).

(** The [for conv_id in deleted_ids] loop of [handle_deletions], over the
    ids in the order the set yields them.  [del] of a key that is absent
    raises [KeyError]. *)
Fixpoint deletion_loop (deleted_ids : list string) (state : sync_state)
    (deleted_count : nat) : io (nat * sync_state) :=
  match deleted_ids with
  | [] => mret (deleted_count, state)
  | conv_id :: rest =>
      go ← read_world running;
      if negb go then mret (deleted_count, state)
      else
        match conversations state !! conv_id with
        | None => raise
        | Some conv_state =>
            if negb (truthy (filename conv_state)) then
              deletion_loop rest (drop_entry conv_id state) deleted_count
            else
              '(deleted_count, state) ←
                delete_remote conv_id (filename conv_state) state deleted_count;
              deletion_loop rest state deleted_count
        end
  end.

(** [handle_deletions] *)
Definition handle_deletions (omi_conversation_ids : gset string) (state : sync_state)
  : io (nat * sync_state) :=
  emit (Enter Rhandle_deletions);;
  let state_conv_ids : gset string := dom (conversations state) in
  let deleted_ids := state_conv_ids ∖ omi_conversation_ids in
  if bool_decide (deleted_ids = ∅) then mret (0, state)
  else
    logger INFO ("Detected " +:+ pretty (size deleted_ids) +:+ " deleted conversation(s)");;
    deletion_loop (elements deleted_ids) state 0.

(** The [for conversation in conversations] loop of [run_sync_cycle] with
    its three counters. *)
Fixpoint sync_loop (fetched : list conversation) (state : sync_state)
    (created updated skipped : nat) : io (nat * nat * nat * sync_state) :=
  match fetched with
  | [] => mret (created, updated, skipped, state)
  | conversation :: rest =>
      go ← read_world running;
      if negb go then
        logger INFO "Shutdown requested, stopping sync";;
        mret (created, updated, skipped, state)
      else
        let conv_id := id conversation in
        let was_existing := bool_decide (is_Some (conversations state !! conv_id)) in
        '(synced, state) ← sync_conversation conversation state;
        if synced : bool then
          if was_existing
          then sync_loop rest state created (S updated) skipped
          else sync_loop rest state (S created) updated skipped
        else sync_loop rest state created updated (S skipped)
  end.

(** [{c.get("id") for c in conversations if c.get("id")}] *)
Definition omi_conv_ids (fetched : list conversation) : gset string :=
  list_to_set (filter (λ i, i ≠ "") (id <$> fetched)).

(** [run_sync_cycle].  [fetch_result] is what [fetch_conversations]
    returns in this cycle: [None] on a request failure, the list of
    conversations otherwise. *)
Definition run_sync_cycle (fetch_result : option (list conversation))
    (state : sync_state) : io sync_state :=
  logger INFO "Starting sync cycle";;
  client ← read_world client_ok;
  if negb client then
    logger ERROR "Failed to initialize WebDAV client";;
    mret state
  else
    dir_ok ← ensure_output_directory;
    if negb dir_ok then mret state
    else
      match fetch_result with
      | None =>
          logger WARNING "Failed to fetch conversations, skipping cycle";;
          mret state
      | Some fetched =>
          '(deleted, state) ← handle_deletions (omi_conv_ids fetched) state;
          match fetched with
          | [] =>
              logger INFO "No conversations to sync";;
              mret state
          | _ =>
              '(created, updated, skipped, state) ← sync_loop fetched state 0 0 0;
              clock ← read_world now;
              let state := set_last_sync (isoformat clock) state in
              logger INFO ("Sync complete: " +:+ pretty created +:+ " created, "
                           +:+ pretty updated +:+ " updated, "
                           +:+ pretty skipped +:+ " skipped, "
                           +:+ pretty deleted +:+ " deleted");;
              mret state
          end
      end.

End Program.

(** ** A sample platform

    An instance on which the program can be run: the identity for the
    two sanitizers (which is what they do on plain ASCII words), a parser
    of dates written [YYYY-MM-DD...], a digest that spells out the content,
    and a line-based front matter format. *)

Definition digit_value (a : ascii) : option nat :=
  let n := nat_of_ascii a in
  if (48 <=? n)%nat && (n <=? 57)%nat then Some (n - 48)%nat else None.

Definition sample_fromisoformat (s : string) : option datetime :=
  match s with
  | String y1 (String y2 (String y3 (String y4 (String "-"
      (String m1 (String m2 (String "-" (String d1 (String d2 rest))))))))) =>
      y1 ← digit_value y1; y2 ← digit_value y2; y3 ← digit_value y3;
      y4 ← digit_value y4; m1 ← digit_value m1; m2 ← digit_value m2;
      d1 ← digit_value d1; d2 ← digit_value d2;
      Some (Datetime (1000 * y1 + 100 * y2 + 10 * y3 + y4) (10 * m1 + m2)
                     (10 * d1 + d2) rest)
  | _ => None
  end.

Definition sample_digest (s : structured_t) (segs : list segment) : string :=
  default "" (s_overview s) +:+ "|" +:+ String.concat "|" (text <$> segs).

(** Split at the first newline. *)
Fixpoint split_line (s : string) : string * option string :=
  match s with
  | EmptyString => (EmptyString, None)
  | String a s' =>
      if Ascii.eqb a (ascii_of_nat 10) then (EmptyString, Some s')
      else let '(l, r) := split_line s' in (String a l, r)
  end.

(** Split [key: value] at the first colon. *)
Fixpoint split_colon (s : string) : option (string * string) :=
  match s with
  | EmptyString => None
  | String a s' =>
      if Ascii.eqb a ":" then
        match s' with
        | String " " v => Some (EmptyString, v)
        | _ => None
        end
      else '(k, v) ← split_colon s'; Some (String a k, v)
  end.

Fixpoint parse_block (fuel : nat) (s : string) (acc : gmap string string)
  : option post :=
  match fuel with
  | O => None
  | S fuel' =>
      match split_line s with
      | (line, Some rest) =>
          if bool_decide (line = "---") then Some (Post acc rest)
          else '(k, v) ← split_colon line; parse_block fuel' rest (<[k := v]> acc)
      | (_, None) => None
      end
  end.

Definition sample_loads (s : string) : option post :=
  match split_line s with
  | ("---", Some rest) => parse_block (String.length rest) rest ∅
  | _ => Some (Post ∅ s)
  end.

Definition sample_dumps (p : post) : string :=
  "---" +:+ newline
  +:+ String.concat "" ((λ kv, kv.1 +:+ ": " +:+ kv.2 +:+ newline) <$> map_to_list (metadata p))
  +:+ "---" +:+ newline +:+ content p.

Definition sample_platform : Platform := {|
  OUTPUT_DIR := "/conversations";
  content_digest := sample_digest;
  normalize_nfc := λ s, s;
  sanitize_filename := λ s, s;
  fromisoformat := sample_fromisoformat;
  frontmatter_dumps := sample_dumps;
  frontmatter_loads := sample_loads
|}.

(** ** Sample inputs *)

Definition sample_clock : datetime := Datetime 2026 11 4 "T10:00:00+00:00".

(** A store that holds the output directory and the files [fs], with the
    fault schedule [fl]. *)
Definition sample_world (fs : gmap string string) (fl : list bool) : world :=
  World fs {["/conversations"]} true fl true sample_clock.

(** A conversation created on 15 January 2024, without transcript. *)
Definition sample_record (i t overview : string) : conversation :=
  Conversation i "2024-01-15T10:30:00Z"
    (Structured (Some t) (Some "work") (Some overview) []) [].

Definition one_entry (i : string) (e : state_entry) : sync_state :=
  SyncState 1 None {[i := e]}.

(** The record [a1], now titled [New], and a state that knows it as [Old]
    with the same content. *)
Definition renamed_record : conversation := sample_record "a1" "New" "hello".

Definition state_before_rename : sync_state :=
  one_entry "a1"
    (StateEntry (@compute_content_hash sample_platform renamed_record) "Old.md" "Old").

(** The same record against an entry whose content hash is out of date. *)
Definition state_before_rewrite : sync_state :=
  one_entry "a1" (StateEntry "stale" "Old.md" "Old").

Definition old_file : gmap string string := {["/conversations/Old.md" := "old bytes"]}.

(** The first sync of [a1] from the empty state into an empty store. *)
Definition first_cycle : option sync_state * world * list event :=
  @run_sync_cycle sample_platform (Some [sample_record "a1" "Chat" "hello"]) empty_state
    (sample_world ∅ []).


(** ** The change classifier of the specification

    Section 4.3 of the specification describes a classifier with four
    answers.  The program has no such function: [sync_conversation]
    computes [title_changed] and [content_changed] and branches on them.
    [classify] follows the words of the specification, to be compared
    with what the program does. *)

Inductive change := New | Unchanged | TitleOnly | ContentChanged.

Definition classify (record_title fingerprint : string) (stored : option state_entry)
  : change :=
  match stored with
  | None => New
  | Some entry =>
      let titleChanged :=
        bool_decide (title entry ≠ "") && bool_decide (title entry ≠ record_title) in
      let contentChanged := bool_decide (omi_hash entry ≠ fingerprint) in
      if contentChanged then ContentChanged
      else if titleChanged then TitleOnly
      else Unchanged
  end.

(** ** Reading the trace *)

Definition is_upload (e : event) : bool :=
  match e with Store (OpUpload _ _) _ => true | _ => false end.

Definition is_move (e : event) : bool :=
  match e with Store (OpMove _ _) _ => true | _ => false end.

Definition is_remove (e : event) : bool :=
  match e with Store (OpRemove _) _ => true | _ => false end.

(** The destination operations that change files: write, move, remove. *)
Definition mutates (e : event) : bool := is_upload e || is_move e || is_remove e.

Definition is_store (e : event) : bool :=
  match e with Store _ _ => true | _ => false end.

Definition is_enter (e : event) : bool :=
  match e with Enter _ => true | _ => false end.

Definition enters_sweep (e : event) : bool :=
  match e with Enter Rhandle_deletions => true | _ => false end.

Definition enters_record (e : event) : bool :=
  match e with Enter (Rsync_conversation _) => true | _ => false end.

(** A Store call that raised. *)
Definition failed (e : event) : bool :=
  match e with Store _ false => true | _ => false end.

Definition count_events (f : event → bool) (evs : list event) : nat :=
  length (List.filter f evs).

(** How the trace of one record shows what was done with it.  Regenerated:
    one write is attempted and nothing is moved.  Renamed: nothing is
    written or removed, the first Store call asks whether the old file
    exists, and at most one move follows. *)
Definition regenerated (evs : list event) : Prop :=
  count_events is_upload evs = 1 ∧ count_events is_move evs = 0.

Definition renamed_only (old_remote_path : string) (evs : list event) : Prop :=
  count_events is_upload evs = 0
  ∧ count_events is_remove evs = 0
  ∧ (count_events is_move evs ≤ 1)%nat
  ∧ ∃ ok, List.find is_store evs = Some (Store (OpExists old_remote_path) ok).

(** The first [n] Store calls made from [w] meet no injected fault. *)
Definition calm (n : nat) (w : world) : bool := forallb negb (take n (faults w)).

(** ** Reading the state *)

(** A filename as [generate_filename] produces them. *)
Definition md_name (fn : string) : Prop := ∃ base, fn = base +:+ ".md".

(** Every entry of the state names a [.md] file. *)
Definition md_names (st : sync_state) : Prop :=
  ∀ k e, conversations st !! k = Some e → md_name (filename e).

(** The ids that [sync_conversation] would accept, as a set. *)
Definition own_id (c : conversation) : gset string :=
  if decide (id c = "") then ∅ else {[id c]}.

(** ** Fetching the conversations

    [fetch_conversations] talks to the Omi API in a [while True] loop.
    The model runs the loop against a script of what the iterations meet,
    one [turn] per iteration: the shutdown flag read as set, or the flag
    read as clear and the reply that [requests.get] then gets.  A script
    that is used up before the loop ends leaves the loop [Pending]. *)

Definition OMI_PAGE_SIZE : nat := 25.

(** What one request comes to: status 429 with the [Retry-After] header
    it carries, if any; a [RequestException] raised by [requests.get], by
    [raise_for_status] or by [response.json]; or the list of the JSON
    body. *)
Inductive reply :=
| TooManyRequests (retry_after : option string)
| RequestException
| Json (page : list conversation).

Inductive turn :=
| ShutdownRequested
| Reply (r : reply).

(** What the loop does that can be seen from outside: the requests with
    their [offset] parameter, the two kinds of [time.sleep], the log. *)
Inductive fetch_event :=
| Get (offset : nat)
| SleepRetry (seconds : Z)
| SleepDelay
| Note (lv : level) (msg : string).

(** How a call ends: with the value it returns, with an exception that
    it does not catch, or not within the script. *)
Inductive fetch_outcome :=
| Returned (r : option (list conversation))
| Raised
| Pending.

Section Fetch.

(** [int] of a string; [None] is [ValueError]. *)
Variable py_int : string → option Z.

(** The loop of [fetch_conversations] from the list gathered so far and
    the current [offset].  [int(...)] of a header that is no integer and
    [time.sleep] of a negative number raise [ValueError], which the
    [except requests.exceptions.RequestException] clause lets through. *)
Fixpoint fetch_loop (script : list turn) (gathered : list conversation) (offset : nat)
  : fetch_outcome * list fetch_event :=
  match script with
  | [] => (Pending, [])
  | ShutdownRequested :: _ =>
      (Returned (Some gathered),
       [Note INFO "Shutdown requested, stopping conversation fetch"])
  | Reply r :: rest =>
      match r with
      | RequestException =>
          (Returned None, [Get offset; Note ERROR "Failed to fetch conversations"])
      | TooManyRequests header =>
          match py_int (default "60" header) with
          | None => (Raised, [Get offset])
          | Some retry_after =>
              let warning :=
                Note WARNING ("Rate limited, sleeping for " +:+ pretty retry_after +:+ "s") in
              if (retry_after <? 0)%Z then (Raised, [Get offset; warning])
              else
                let '(outcome, evs) := fetch_loop rest gathered offset in
                (outcome, Get offset :: warning :: SleepRetry retry_after :: evs)
          end
      | Json page =>
          match page with
          | [] => (Returned (Some gathered), [Get offset])
          | _ =>
              let gathered := gathered ++ page in
              let info :=
                Note INFO ("Fetched " +:+ pretty (length page) +:+ " conversations (total: "
                           +:+ pretty (length gathered) +:+ ")") in
              if (length page <? OMI_PAGE_SIZE)%nat
              then (Returned (Some gathered), [Get offset; info])
              else
                let '(outcome, evs) := fetch_loop rest gathered (offset + OMI_PAGE_SIZE) in
                (outcome, Get offset :: info :: SleepDelay :: evs)
          end
      end
  end.

(** [fetch_conversations] *)
Definition fetch_conversations (script : list turn) : fetch_outcome * list fetch_event :=
  fetch_loop script [] 0.

(** A turn after which the loop goes round again: a full page, or a 429
    whose [Retry-After] is a number that is not negative. *)
Definition goes_on (t : turn) : Prop :=
  match t with
  | Reply (Json page) => (OMI_PAGE_SIZE ≤ length page)%nat
  | Reply (TooManyRequests header) =>
      ∃ n, py_int (default "60" header) = Some n ∧ (0 ≤ n)%Z
  | _ => False
  end.

End Fetch.

(** The pages among the replies of a script. *)
Definition pages_of (script : list turn) : list (list conversation) :=
  omap (λ t, match t with Reply (Json page) => Some page | _ => None end) script.

(** The offsets of the requests of a trace. *)
Definition offsets_of (evs : list fetch_event) : list nat :=
  omap (λ e, match e with Get offset => Some offset | _ => None end) evs.

(** The reply of a server that holds the list [held] to the request
    number [k] of a fetch that is never rate limited: the slice of
    [OMI_PAGE_SIZE] records at offset [k * OMI_PAGE_SIZE]. *)
Definition serve (held : list conversation) (k : nat) : turn :=
  Reply (Json (take OMI_PAGE_SIZE (drop (k * OMI_PAGE_SIZE) held))).

(** ** Sample inputs for the fetch *)

(** A reading of [int] for the sample runs: decimal digits after an
    optional minus sign. *)
Fixpoint sample_digits (s : string) (acc : Z) : option Z :=
  match s with
  | EmptyString => Some acc
  | String a s' =>
      match digit_value a with
      | Some d => sample_digits s' (10 * acc + Z.of_nat d)%Z
      | None => None
      end
  end.

Definition sample_int (s : string) : option Z :=
  match s with
  | EmptyString => None
  | String "-" (String a s') => Z.opp <$> sample_digits (String a s') 0
  | _ => sample_digits s 0
  end.

(** A page of [n] records. *)
Definition sample_page (n : nat) : list conversation :=
  replicate n (sample_record "a1" "Chat" "hello").

(** A state that knows a conversation the service no longer returns, the
    store that holds its file, and the same store under a shutdown
    request. *)
Definition state_with_gone : sync_state :=
  one_entry "gone" (StateEntry "stale" "Gone.md" "Gone").

Definition gone_file : gmap string string := {["/conversations/Gone.md" := "old bytes"]}.

Definition stopped_world : world :=
  World gone_file {["/conversations"]} true [] false sample_clock.

(** ** Proof support *)

Local Arguments String.append : simpl never.
Local Arguments title_changed : simpl never.
Local Arguments content_changed : simpl never.
Local Arguments generate_filename : simpl never.
Local Arguments generate_markdown : simpl never.
Local Arguments determine_filename : simpl never.
Local Arguments store_entry : simpl never.
Local Arguments store_has : simpl never.
Local Arguments preserve_fields : simpl never.
Local Arguments truthy : simpl never.

Ltac io_unfold :=
  cbv [mbind io_mbind io_bind mret io_mret io_ret emit logger try_except raise of_option
       read_world store_call next_fault webdav_exists webdav_read_bytes
       webdav_upload_fileobj webdav_move webdav_remove webdav_mkdir].

Ltac simple_scrutinee x :=
  lazymatch x with
  | context [match _ with _ => _ end] => fail
  | _ => idtac
  end.

(** Case analysis on the next thing the computation inspects: a fault
    flag, a test, a lookup. *)
Ltac io_step :=
  match goal with
  | |- context [match ?x with _ => _ end] =>
      simple_scrutinee x;
      match type of x with
      | list bool => destruct x as [|[] ?]
      | bool => destruct x eqn:?
      | option _ => destruct x eqn:?
      | prod _ _ => destruct x eqn:?
      end; simpl
  end.

Ltac io_cases := repeat io_step.

(** Tests recorded along a path that cannot hold together. *)
Ltac absurd_path :=
  exfalso;
  repeat match goal with
         | Hb : _ = _ |- _ =>
             progress (simpl in Hb;
                       rewrite ?andb_true_r, ?andb_false_r, ?andb_true_l, ?andb_false_l in Hb)
         end;
  congruence.

Ltac absent_event :=
  let Hin := fresh in
  intros Hin; apply list_elem_of_In in Hin; simpl in Hin; intuition discriminate.

Lemma truthy_true (s : string) : s ≠ "" → truthy s = true.
Proof. intros Hs. unfold truthy. by rewrite bool_decide_true. Qed.

Section Properties.
Context `{Platform}.

(** *** The cycle when the fetch fails *)

(** C1. When [fetch_conversations] returns [None], whatever the state
    holds, the cycle returns that very state, [handle_deletions] is not
    entered, no write, move or remove is issued and the files of the
    store are as before. *)
Theorem fetch_failure_skips_sweep (state : sync_state) (w : world) :
  ∃ w' evs,
    run_sync_cycle None state w = (Some state, w', evs)
    ∧ (Enter Rhandle_deletions ∉ evs)
    ∧ existsb mutates evs = false
    ∧ files w' = files w.
Proof.
  destruct w as [fs ds ck fl rn nw].
  unfold run_sync_cycle, ensure_output_directory.
  io_unfold; simpl.
  io_cases.
  all: do 2 eexists; split; [reflexivity|].
  all: split; [absent_event|split; reflexivity].
Qed.

(** *** One record *)

(** What every run of [sync_conversation] has in common: it returns, it
    leaves the flags and the clock alone, it enters once, a [False] result
    comes with the state untouched and a [True] result with the entry of
    the record rewritten, a failed write or move gives [False], and a
    successful write gives [True]. *)
Lemma sync_conversation_outcome (c : conversation) (st : sync_state) (w : world) :
  ∃ b st' w' tail,
    sync_conversation c st w = (Some (b, st'), w', Enter (Rsync_conversation (id c)) :: tail)
    ∧ running w' = running w ∧ now w' = now w ∧ client_ok w' = client_ok w
    ∧ existsb is_enter tail = false
    ∧ (b = false → st' = st)
    ∧ (b = true →
       ∃ fn, st' = store_entry (id c) (compute_content_hash c) fn (current_title c) st)
    ∧ (existsb (λ e, failed e && (is_upload e || is_move e)) tail = true → b = false)
    ∧ (existsb (λ e, is_upload e && negb (failed e)) tail = true → b = true).
Proof.
  destruct w as [fs ds ck fl rn nw].
  unfold sync_conversation, regenerate, rename_only, preserve_user_metadata,
    upload_and_record, delete_old_file.
  io_unfold; simpl.
  io_cases.
  all: do 4 eexists; split; [reflexivity|]; simpl.
  all: repeat split; intros; try congruence; eauto.
Qed.

(** A record whose entry shows no change is skipped without a trace beyond
    the entry into the routine. *)
Lemma sync_conversation_unchanged (c : conversation) (st : sync_state) (w : world)
    (e : state_entry) :
  id c ≠ "" →
  conversations st !! id c = Some e →
  title_changed (Some e) (current_title c) = false →
  content_changed (Some e) (compute_content_hash c) = false →
  sync_conversation c st w = (Some (false, st), w, [Enter (Rsync_conversation (id c))]).
Proof.
  intros Hid Hlook Ht Hc.
  unfold sync_conversation; io_unfold; simpl.
  rewrite (truthy_true _ Hid), Hlook, Ht, Hc. reflexivity.
Qed.

(** A record without an id is skipped with a warning. *)
Lemma sync_conversation_missing_id (c : conversation) (st : sync_state) (w : world) :
  id c = "" →
  sync_conversation c st w
  = (Some (false, st), w,
     [Enter (Rsync_conversation ""); Log WARNING "Conversation missing ID, skipping"]).
Proof.
  intros Hid. unfold sync_conversation; io_unfold; simpl.
  rewrite Hid. reflexivity.
Qed.

(** *** The deletion sweep *)

Lemma delete_remote_outcome (conv_id fn : string) (st : sync_state) (n : nat) (w : world) :
  ∃ n' st' w' evs,
    delete_remote conv_id fn st n w = (Some (n', st'), w', evs)
    ∧ running w' = running w ∧ now w' = now w ∧ client_ok w' = client_ok w
    ∧ existsb is_enter evs = false
    ∧ (st' = st ∨ st' = drop_entry conv_id st).
Proof.
  destruct w as [fs ds ck fl rn nw].
  unfold delete_remote; io_unfold; simpl.
  io_cases.
  all: do 4 eexists; split; [reflexivity|]; simpl; auto 10.
Qed.

(** The loop never meets a missing key when it is handed distinct ids of
    the state, which is what the set difference gives it. *)
Lemma deletion_loop_outcome (ids : list string) :
  ∀ (st : sync_state) (n : nat) (w : world),
    NoDup ids →
    (∀ i, i ∈ ids → is_Some (conversations st !! i)) →
    ∃ n' st' w' evs,
      deletion_loop ids st n w = (Some (n', st'), w', evs)
      ∧ running w' = running w ∧ now w' = now w ∧ client_ok w' = client_ok w
      ∧ existsb is_enter evs = false.
Proof.
  induction ids as [|i rest IH]; intros st n w Hnd Hin.
  - do 4 eexists. split; [reflexivity|]. auto.
  - apply NoDup_cons in Hnd as [Hfresh Hnd].
    assert (Hrest : ∀ st', (st' = st ∨ st' = drop_entry i st) →
                           ∀ j, j ∈ rest → is_Some (conversations st' !! j)).
    { intros st' [->| ->] j Hj.
      - apply Hin. by right.
      - simpl. rewrite lookup_delete_ne by (intros ->; contradiction).
        apply Hin. by right. }
    destruct (Hin i) as [cs Hcs]; [by left|].
    cbn [deletion_loop]. io_unfold. simpl.
    destruct (running w) eqn:Hrun; simpl.
    + rewrite Hcs.
      destruct (truthy (filename cs)); simpl.
      * destruct (delete_remote_outcome i (filename cs) st n w)
          as (n1 & st1 & w1 & evs1 & -> & Hr1 & Hn1 & Hc1 & He1 & Hst1).
        destruct (IH st1 n1 w1 Hnd (Hrest st1 Hst1))
          as (n2 & st2 & w2 & evs2 & -> & Hr2 & Hn2 & Hc2 & He2).
        do 4 eexists. split; [reflexivity|].
        rewrite existsb_app, He1, He2. repeat split; congruence.
      * destruct (IH (drop_entry i st) n w Hnd (Hrest _ (or_intror eq_refl)))
          as (n2 & st2 & w2 & evs2 & -> & Hr2 & Hn2 & Hc2 & He2).
        do 4 eexists. split; [reflexivity|]. repeat split; congruence.
    + do 4 eexists. split; [reflexivity|]. auto.
Qed.

(** [handle_deletions] returns, enters once, and does nothing at all when
    every id of the state is among the fetched ones. *)
Lemma handle_deletions_outcome (omi_ids : gset string) (st : sync_state) (w : world) :
  ∃ n st' w' tail,
    handle_deletions omi_ids st w = (Some (n, st'), w', Enter Rhandle_deletions :: tail)
    ∧ running w' = running w ∧ now w' = now w ∧ client_ok w' = client_ok w
    ∧ existsb is_enter tail = false
    ∧ (dom (conversations st) ⊆ omi_ids → st' = st ∧ w' = w ∧ tail = []).
Proof.
  unfold handle_deletions; io_unfold; simpl.
  destruct (bool_decide (dom (conversations st) ∖ omi_ids = ∅)) eqn:Hd; simpl.
  - do 4 eexists. split; [reflexivity|]. auto 10.
  - apply bool_decide_eq_false in Hd.
    destruct (deletion_loop_outcome (elements (dom (conversations st) ∖ omi_ids)) st 0 w)
      as (n' & st' & w' & evs & -> & Hr & Hn & Hc & He).
    { apply NoDup_elements. }
    { intros i Hi%elem_of_elements. apply elem_of_dom.
      by apply elem_of_difference in Hi as [Hi _]. }
    do 4 eexists. split; [reflexivity|].
    do 4 (split; [done|]).
    intros Hsub. exfalso. apply Hd. by apply subseteq_empty_difference_L.
Qed.

(** *** The cycle *)

Lemma existsb_weaken (f g : event → bool) (evs : list event) :
  (∀ e, g e = true → f e = true) →
  existsb f evs = false → existsb g evs = false.
Proof.
  intros Hfg. induction evs as [|e evs IH]; simpl; [done|].
  intros [Hf Hrest]%orb_false_elim.
  rewrite (IH Hrest), orb_false_r.
  destruct (g e) eqn:Hg; [|done]. rewrite (Hfg e Hg) in Hf. done.
Qed.

Lemma count_events_none (f : event → bool) (evs : list event) :
  existsb f evs = false → count_events f evs = 0.
Proof.
  unfold count_events. induction evs as [|e evs IH]; simpl; [done|].
  intros [-> Hrest]%orb_false_elim. auto.
Qed.

Lemma count_events_app (f : event → bool) (evs1 evs2 : list event) :
  count_events f (evs1 ++ evs2) = count_events f evs1 + count_events f evs2.
Proof. unfold count_events. by rewrite List.filter_app, length_app. Qed.

Lemma ensure_output_directory_outcome (w : world) :
  ∃ ok w' evs,
    ensure_output_directory w = (Some ok, w', evs)
    ∧ running w' = running w ∧ now w' = now w ∧ client_ok w' = client_ok w
    ∧ files w' = files w
    ∧ existsb is_enter evs = false
    ∧ existsb mutates evs = false.
Proof.
  destruct w as [fs ds ck fl rn nw].
  unfold ensure_output_directory; io_unfold; simpl.
  io_cases.
  all: do 3 eexists; split; [reflexivity|]; simpl; auto 10.
Qed.

(** The loop over the fetched records returns, never enters the sweep,
    and, unless a shutdown is requested, enters [sync_conversation] once
    per record and counts each record in one of its three counters. *)
Lemma sync_loop_outcome (fetched : list conversation) :
  ∀ (st : sync_state) (created updated skipped : nat) (w : world),
    ∃ created' updated' skipped' st' w' evs,
      sync_loop fetched st created updated skipped w
      = (Some (created', updated', skipped', st'), w', evs)
      ∧ running w' = running w ∧ now w' = now w ∧ client_ok w' = client_ok w
      ∧ existsb enters_sweep evs = false
      ∧ (running w = true →
         count_events enters_record evs = length fetched
         ∧ created' + updated' + skipped' = created + updated + skipped + length fetched).
Proof.
  induction fetched as [|c rest IH]; intros st cr up sk w.
  - do 6 eexists. split; [reflexivity|]. simpl. repeat split; auto with lia.
  - cbn [sync_loop]. io_unfold. simpl.
    destruct (running w) eqn:Hrun; simpl.
    + destruct (sync_conversation_outcome c st w)
        as (b & st1 & w1 & tail & -> & Hr1 & Hn1 & Hc1 & He1 & _).
      assert (Hsweep : existsb enters_sweep tail = false).
      { revert He1. apply existsb_weaken. by intros [| |]. }
      assert (Hrec : count_events enters_record tail = 0).
      { apply count_events_none. revert He1. apply existsb_weaken. by intros [| |]. }
      assert (Hrun1 : running w1 = true) by congruence.
      destruct b; [destruct (bool_decide (is_Some (conversations st !! id c)))|].
      all: match goal with
           | |- context [sync_loop _ ?s ?a ?b ?c ?w'] =>
               destruct (IH s a b c w')
                 as (cr2 & up2 & sk2 & st2 & w2 & evs2 & -> & Hr2 & Hn2 & Hc2 & He2 & Hcount)
           end.
      all: destruct (Hcount Hrun1) as [Hlen Hsum].
      all: do 6 eexists; split; [reflexivity|].
      all: repeat split; try congruence.
      all: try (simpl; rewrite existsb_app, Hsweep, He2; reflexivity).
      all: try (change ((Enter (Rsync_conversation (id c)) :: tail) ++ evs2)
                  with ([Enter (Rsync_conversation (id c))] ++ tail ++ evs2);
                rewrite !count_events_app, Hrec, Hlen; reflexivity).
      all: simpl; lia.
    + do 6 eexists. split; [reflexivity|]. simpl.
      repeat split; auto; discriminate.
Qed.

(** C2 (amended).  While a record is processed, a write or a move that
    fails makes [sync_conversation] return [False] and leave the state as it
    was, and [False] never comes with a changed state; a write that
    succeeds makes it return [True] with the entry of the record rewritten,
    whatever happens to the removal of the old file afterwards.  And the
    loop of the cycle goes through every fetched record, counting each one
    as created, updated or skipped, whatever the records before it did. *)
Theorem store_failure_fails_the_record_only (c : conversation) (st : sync_state) (w : world) :
  (∃ b st' w' evs,
     sync_conversation c st w = (Some (b, st'), w', evs)
     ∧ (existsb (λ e, failed e && (is_upload e || is_move e)) evs = true →
        b = false ∧ st' = st)
     ∧ (b = false → st' = st)
     ∧ (existsb (λ e, is_upload e && negb (failed e)) evs = true →
        b = true
        ∧ ∃ fn, conversations st' !! id c
                = Some (StateEntry (compute_content_hash c) fn (current_title c))))
  ∧ (∀ fetched created updated skipped,
       running w = true →
       ∃ created' updated' skipped' st' w' evs,
         sync_loop fetched st created updated skipped w
         = (Some (created', updated', skipped', st'), w', evs)
         ∧ count_events enters_record evs = length fetched
         ∧ created' + updated' + skipped' = created + updated + skipped + length fetched).
Proof.
  split.
  - destruct (sync_conversation_outcome c st w)
      as (b & st' & w' & tail & Hrun & _ & _ & _ & _ & Hfalse & Htrue & Hfail & Hok).
    exists b, st', w', (Enter (Rsync_conversation (id c)) :: tail).
    split; [exact Hrun|]. simpl.
    split; [|split]; [|exact Hfalse|].
    + intros Hf. pose proof (Hfail Hf). auto.
    + intros Hu. pose proof (Hok Hu) as Hb. split; [exact Hb|].
      destruct (Htrue Hb) as [fn ->]. exists fn.
      unfold store_entry. simpl. apply lookup_insert_eq.
  - intros fetched cr up sk Hgo.
    destruct (sync_loop_outcome fetched st cr up sk w)
      as (cr' & up' & sk' & st' & w' & evs & Hrun & _ & _ & _ & _ & Hcount).
    destruct (Hcount Hgo) as [Hlen Hsum].
    eauto 10.
Qed.

(** The phases of a cycle whose fetch succeeded: either it stops before
    the fetch (no client, no output directory) and returns the state it
    was given, or it runs the sweep on that state, then the loop over the
    records, then stamps the state. *)
Lemma run_sync_cycle_phases (fetched : list conversation) (st : sync_state) (w : world) :
  (∃ w' evs,
     run_sync_cycle (Some fetched) st w = (Some st, w', evs)
     ∧ existsb is_enter evs = false ∧ existsb mutates evs = false
     ∧ files w' = files w)
  ∨ (∃ pre w1 n st1 w2 sweep cr up sk st2 w3 records closing,
       running w1 = running w ∧ files w1 = files w
       ∧ existsb is_enter pre = false ∧ existsb mutates pre = false
       ∧ handle_deletions (omi_conv_ids fetched) st w1
         = (Some (n, st1), w2, Enter Rhandle_deletions :: sweep)
       ∧ sync_loop fetched st1 0 0 0 w2 = (Some (cr, up, sk, st2), w3, records)
       ∧ existsb is_enter closing = false ∧ existsb mutates closing = false
       ∧ run_sync_cycle (Some fetched) st w
         = (Some (match fetched with
                  | [] => st1
                  | _ => set_last_sync (isoformat (now w3)) st2
                  end),
            w3, pre ++ (Enter Rhandle_deletions :: sweep) ++ records ++ closing)).
Proof.
  unfold run_sync_cycle. io_unfold. simpl.
  destruct (client_ok w) eqn:Hck; simpl.
  - destruct (ensure_output_directory_outcome w)
      as (ok & w1 & evs1 & Hdir & Hr1 & Hn1 & Hc1 & Hf1 & He1 & Hm1).
    rewrite Hdir. destruct ok; simpl.
    + right.
      destruct (handle_deletions_outcome (omi_conv_ids fetched) st w1)
        as (n & st1 & w2 & sweep & Hsweep & _).
      destruct (sync_loop_outcome fetched st1 0 0 0 w2)
        as (cr & up & sk & st2 & w3 & records & Hloop & _).
      rewrite Hsweep.
      destruct fetched as [|c rest].
      * injection Hloop as <- <- <- <- <- <-.
        eexists (_ :: evs1), w1, n, st1, w2, sweep, 0, 0, 0, st1, w2, [], [_].
        split_and!; try done.
        all: cbn; done.
      * rewrite Hloop.
        eexists (_ :: evs1), w1, n, st1, w2, sweep, cr, up, sk, st2, w3, records, [_].
        split_and!; try done.
        all: cbn; done.
    + left. do 2 eexists. split; [reflexivity|]. simpl. by rewrite app_nil_r.
  - left. do 2 eexists. split; [reflexivity|]. auto.
Qed.


(** *** A second cycle on the same records *)

Lemma classify_unchanged (t h : string) (stored : option state_entry) :
  classify t h stored = Unchanged →
  ∃ e, stored = Some e
       ∧ title_changed (Some e) t = false
       ∧ content_changed (Some e) h = false.
Proof.
  destruct stored as [e|]; [|discriminate].
  unfold classify, title_changed, content_changed, truthy.
  destruct (bool_decide (omi_hash e ≠ h)) eqn:Hh; [discriminate|].
  destruct (bool_decide (title e ≠ "") && bool_decide (title e ≠ t)) eqn:Ht;
    [discriminate|].
  intros _. exists e. auto.
Qed.

(** Records that the state classifies as unchanged go through the loop
    without a Store call and without a change of state or world. *)
Lemma sync_loop_unchanged (fetched : list conversation) (st : sync_state) (w : world) :
  Forall (λ c, classify (current_title c) (compute_content_hash c)
                 (conversations st !! id c) = Unchanged) fetched →
  ∀ created updated skipped,
    ∃ skipped' evs,
      sync_loop fetched st created updated skipped w
      = (Some (created, updated, skipped', st), w, evs)
      ∧ existsb is_store evs = false.
Proof.
  induction 1 as [|c rest Hc _ IH]; intros cr up sk.
  - do 2 eexists. split; reflexivity.
  - cbn [sync_loop]. io_unfold. simpl.
    destruct (running w); simpl.
    + destruct (IH cr up (S sk)) as (sk' & evs & Hloop & Hquiet).
      apply classify_unchanged in Hc as (e & Hlook & Ht & Hh).
      destruct (decide (id c = "")) as [Hid|Hid].
      * rewrite (sync_conversation_missing_id c st w Hid), Hloop.
        do 2 eexists. split; [reflexivity|]. exact Hquiet.
      * rewrite (sync_conversation_unchanged c st w e Hid Hlook Ht Hh), Hloop.
        do 2 eexists. split; [reflexivity|]. exact Hquiet.
    + do 2 eexists. split; reflexivity.
Qed.

(** C4.  If a cycle leaves a state under which every fetched record is
    classified Unchanged and every id of the state is among the fetched
    ids, then the next cycle on the same records issues no write, move or
    remove, and leaves the entries of the state and the files of the store
    as they are. *)
Theorem second_cycle_is_idle (fetched : list conversation) (st0 st1 : sync_state)
    (w0 w1 : world) (evs1 : list event) :
  run_sync_cycle (Some fetched) st0 w0 = (Some st1, w1, evs1) →
  Forall (λ c, classify (current_title c) (compute_content_hash c)
                 (conversations st1 !! id c) = Unchanged) fetched →
  dom (conversations st1) ⊆ omi_conv_ids fetched →
  ∃ st2 w2 evs2,
    run_sync_cycle (Some fetched) st1 w1 = (Some st2, w2, evs2)
    ∧ existsb mutates evs2 = false
    ∧ conversations st2 = conversations st1
    ∧ files w2 = files w1.
Proof.
  intros _ Hsame Hnone.
  destruct (run_sync_cycle_phases fetched st1 w1)
    as [(w2 & evs2 & Hrun & _ & Hquiet & Hfiles)
       |(pre & wa & n & sta & wb & sweep & cr & up & sk & stb & wc & records & closing
         & _ & Hfiles & _ & Hpre & Hsweep & Hloop & _ & Hclosing & Hrun)].
  - eauto 10.
  - destruct (handle_deletions_outcome (omi_conv_ids fetched) st1 wa)
      as (n' & sta' & wb' & sweep' & Hsweep' & _ & _ & _ & _ & Hidle).
    rewrite Hsweep in Hsweep'. injection Hsweep' as <- <- <- <-.
    destruct (Hidle Hnone) as (-> & -> & ->).
    destruct (sync_loop_unchanged fetched st1 wa Hsame 0 0 0)
      as (sk' & records' & Hloop' & Hrecords).
    rewrite Hloop in Hloop'. injection Hloop' as -> -> -> -> -> ->.
    do 3 eexists. split; [exact Hrun|].
    split; [|split].
    + assert (Hrec : existsb mutates records' = false).
      { revert Hrecords. apply existsb_weaken. by intros [[]| |]. }
      rewrite !existsb_app, Hpre, Hclosing, Hrec. reflexivity.
    + by destruct fetched.
    + exact Hfiles.
Qed.

(** *** Classification and handling *)

(** C3 (amended).  For a record that has an id: [title_changed] and
    [content_changed] are the two tests of the specification; a record
    classified Unchanged is left alone (no Store call, same state, same
    world, [False]); a New or ContentChanged record is regenerated; a
    TitleOnly record is renamed when its entry holds a filename, and
    regenerated under a newly allocated name when that filename is empty. *)
Theorem sync_conversation_follows_classification (c : conversation) (st : sync_state)
    (w : world) :
  id c ≠ "" →
  ∃ b st' w' evs,
    sync_conversation c st w = (Some (b, st'), w', evs)
    ∧ (∀ e, conversations st !! id c = Some e →
         (title_changed (Some e) (current_title c) = true
          ↔ title e ≠ "" ∧ title e ≠ current_title c)
         ∧ (content_changed (Some e) (compute_content_hash c) = true
            ↔ omi_hash e ≠ compute_content_hash c))
    ∧ match classify (current_title c) (compute_content_hash c)
              (conversations st !! id c) with
      | Unchanged => b = false ∧ st' = st ∧ w' = w ∧ existsb is_store evs = false
      | New | ContentChanged => regenerated evs
      | TitleOnly =>
          let stored := from_option filename "" (conversations st !! id c) in
          if truthy stored
          then renamed_only (OUTPUT_DIR +:+ "/" +:+ stored) evs
          else regenerated evs
      end.
Proof.
  intros Hid.
  assert (Htests : ∀ e,
             (title_changed (Some e) (current_title c) = true
              ↔ title e ≠ "" ∧ title e ≠ current_title c)
             ∧ (content_changed (Some e) (compute_content_hash c) = true
                ↔ omi_hash e ≠ compute_content_hash c)).
  { intros e. unfold title_changed, content_changed, truthy.
    rewrite andb_true_iff, !bool_decide_eq_true. done. }
  destruct w as [fs ds ck fl rn nw].
  unfold sync_conversation, regenerate, rename_only, preserve_user_metadata,
    upload_and_record, delete_old_file, determine_filename, classify,
    title_changed, content_changed.
  io_unfold; simpl.
  rewrite (truthy_true _ Hid). simpl.
  unfold truthy.
  io_cases.
  all: do 4 eexists; split; [reflexivity|]; split; [intros ? _; apply Htests|].
  all: unfold regenerated, renamed_only, count_events; simpl.
  all: try discriminate; eauto 10.
  all: absurd_path.
Qed.

(** *** Title-only changes *)

Lemma classify_title_only (t h : string) (e : state_entry) :
  classify t h (Some e) = TitleOnly →
  title_changed (Some e) t = true ∧ content_changed (Some e) h = false.
Proof.
  unfold classify, title_changed, content_changed, truthy.
  destruct (bool_decide (omi_hash e ≠ h)); [discriminate|].
  destruct (bool_decide (title e ≠ "") && bool_decide (title e ≠ t)); [|discriminate].
  auto.
Qed.

(** The path [sync_conversation] takes for a title-only change of a record
    whose entry holds a filename: it comes down to [rename_only] towards
    the name allocated among the other records. *)
Lemma sync_conversation_title_only (c : conversation) (st : sync_state) (w : world)
    (e : state_entry) :
  id c ≠ "" →
  conversations st !! id c = Some e →
  filename e ≠ "" →
  classify (current_title c) (compute_content_hash c) (Some e) = TitleOnly →
  let new :=
    generate_filename (current_title c) (created_at c) (drop_entry (id c) st) (now w) in
  ∃ msg,
    sync_conversation c st w
    = let '(r, w', evs) :=
        rename_only (id c) (compute_content_hash c) (current_title c) new (filename e) st w
      in (r, w', Enter (Rsync_conversation (id c)) :: Log INFO msg :: evs).
Proof.
  intros Hid Hlook Hfn [Ht Hc]%classify_title_only new.
  eexists.
  unfold sync_conversation.
  cbv [mbind io_mbind io_bind mret io_mret io_ret emit logger read_world]. simpl.
  rewrite (truthy_true _ Hid), Hlook, Ht, Hc. simpl.
  unfold determine_filename. rewrite (truthy_true _ Hfn), Ht. simpl.
  fold (drop_entry (id c) st). fold new.
  destruct (rename_only _ _ _ _ _ _ _) as [[r w'] evs]. reflexivity.
Qed.

(** C10.  A record classified as a title-only change, whose entry names a
    file about which the store answers that it does not exist, is handled
    without any move, write or remove; its entry takes the newly allocated
    filename and the new title, and the record is reported as synced. *)
Theorem rename_of_missing_file_updates_state (c : conversation) (st : sync_state)
    (w w1 : world) (e : state_entry) (evs1 : list event) :
  id c ≠ "" →
  conversations st !! id c = Some e →
  filename e ≠ "" →
  classify (current_title c) (compute_content_hash c) (Some e) = TitleOnly →
  webdav_exists (OUTPUT_DIR +:+ "/" +:+ filename e) w = (Some false, w1, evs1) →
  let new :=
    generate_filename (current_title c) (created_at c) (drop_entry (id c) st) (now w) in
  ∃ st' evs,
    sync_conversation c st w = (Some (true, st'), w1, evs)
    ∧ existsb mutates evs = false
    ∧ files w1 = files w
    ∧ conversations st' !! id c
      = Some (StateEntry (omi_hash e) new (current_title c))
    ∧ (∀ k, k ≠ id c → conversations st' !! k = conversations st !! k).
Proof.
  intros Hid Hlook Hfn Hclass Hex new.
  destruct (sync_conversation_title_only c st w e Hid Hlook Hfn Hclass) as [msg ->].
  fold new.
  apply classify_title_only in Hclass as [_ Hc].
  unfold content_changed in Hc. apply bool_decide_eq_false in Hc.
  assert (Hhash : omi_hash e = compute_content_hash c).
  { destruct (decide (omi_hash e = compute_content_hash c)); [done|contradiction]. }
  unfold rename_only.
  cbv [mbind io_mbind io_bind mret io_mret io_ret emit logger try_except]. simpl.
  rewrite Hex. simpl.
  do 2 eexists. split; [reflexivity|].
  revert Hex. unfold webdav_exists, store_call, next_fault.
  destruct (faults w) as [|[] fl]; simpl; intros [= Hhas <- <-]; [|].
  all: split_and!; try done.
  all: try (unfold store_entry; simpl; rewrite Hhash; apply lookup_insert_eq).
  all: intros k Hk; unfold store_entry; simpl; by rewrite lookup_insert_ne.
Qed.


(** *** Regeneration and the metadata of the previous document *)


(** Where [sync_conversation] regenerates: for a record with an id that
    is new, or whose content changed, or whose title alone changed while
    no filename is on record, the run is, after the entry and at most one
    log line, the run of [regenerate] with the filename and the old
    filename of [determine_filename]. *)
Lemma sync_conversation_regenerates (c : conversation) (st : sync_state) (w : world) :
  id c ≠ "" →
  let cs := conversations st !! id c in
  let h := compute_content_hash c in
  let plan := determine_filename (id c) (current_title c) (created_at c) cs st (now w) in
  content_changed cs h = true
  ∨ (title_changed cs (current_title c) = true ∧ plan.2 = None) →
  ∃ pre,
    existsb is_store pre = false
    ∧ sync_conversation c st w
      = let '(r, w', evs) := regenerate c h plan.1 plan.2 cs st w in
        (r, w', Enter (Rsync_conversation (id c)) :: pre ++ evs).
Proof.
  intros Hid cs h plan Hwhy.
  unfold sync_conversation.
  cbv [mbind io_mbind io_bind mret io_mret io_ret emit logger read_world]. simpl.
  rewrite (truthy_true _ Hid). simpl.
  fold cs h plan.
  assert (Hgo : bool_decide (is_Some cs) && negb (title_changed cs (current_title c))
                && negb (content_changed cs h) = false).
  { destruct Hwhy as [->|[-> _]]; simpl.
    - apply andb_false_r.
    - by rewrite andb_false_r. }
  rewrite Hgo.
  subst plan.
  destruct (determine_filename _ _ _ _ _ _) as [fn [old|]]; simpl in *.
  - destruct Hwhy as [Hc|[_ Hnone]]; [|discriminate].
    rewrite Hc, andb_false_r.
    destruct (regenerate c h fn (Some old) cs st w) as [[r w'] evs].
    eexists [_]. split; [|reflexivity]. reflexivity.
  - destruct (regenerate c h fn None cs st w) as [[r w'] evs].
    exists []. split; reflexivity.
Qed.


(** *** Strings and dates *)


Lemma replace_double_space_length (n : nat) :
  ∀ s, (String.length s ≤ n)%nat →
       (String.length (replace_double_space s) ≤ String.length s)%nat
       ∧ (has_double_space s = true →
          (String.length (replace_double_space s) < String.length s)%nat).
Proof.
  induction n as [|n IH]; intros s Hlen.
  - destruct s; simpl in *; [split; [lia|discriminate]|lia].
  - destruct s as [|a [|b s]]; simpl in *; try (split; [lia|discriminate]).
    destruct (IH s ltac:(lia)) as [Hle1 _].
    destruct (IH (String b s) ltac:(simpl; lia)) as [Hle2 Hlt2].
    destruct (Ascii.eqb a " " && Ascii.eqb b " "); simpl in *.
    + split; [lia|]. intros _. lia.
    + split; [lia|]. intros Hd. specialize (Hlt2 Hd). lia.
Qed.

Lemma collapse_loop_done (fuel : nat) :
  ∀ s, (String.length s ≤ S fuel)%nat → has_double_space (collapse_loop fuel s) = false.
Proof.
  induction fuel as [|fuel IH]; intros s Hlen.
  - destruct s as [|a [|b s]]; simpl in *; try reflexivity. lia.
  - cbn [collapse_loop]. destruct (has_double_space s) eqn:Hd; [|exact Hd].
    apply IH.
    destruct (replace_double_space_length (String.length s) s (le_n _)) as [_ Hlt].
    specialize (Hlt Hd). lia.
Qed.

(** The rounds allowed to the [while] loop of [sanitize_title] are enough:
    no double space is left. *)
Lemma collapse_spaces_done (s : string) : has_double_space (collapse_spaces s) = false.
Proof. apply collapse_loop_done. lia. Qed.

(** *** Filename allocation *)


Lemma append_inj_l (p s t : string) : p +:+ s = p +:+ t → s = t.
Proof.
  induction p as [|a p IH]; cbn [String.append]; [done|].
  intros [= Heq]. by apply IH.
Qed.




(** ** Footprints: what the routines may change *)

(** *** What one record may change *)

Lemma append_assoc (a b c : string) : (a +:+ b) +:+ c = a +:+ b +:+ c.
Proof.
  induction a as [|x a IH]; [reflexivity|].
  exact (f_equal (String x) IH).
Qed.

Lemma generate_filename_md (t created : string) (st : sync_state) (clock : datetime) :
  md_name (generate_filename t created st clock).
Proof.
  unfold generate_filename, md_name.
  destruct (bool_decide _); [by eexists|].
  exists (sanitize_title t +:+ "_" +:+ date_suffix created clock).
  by rewrite !append_assoc.
Qed.

Lemma md_name_nonempty (fn : string) : md_name fn → fn ≠ "".
Proof. intros [base ->]. by destruct base. Qed.

(** The state [sync_conversation] returns is the one it was given or that
    state with the entry of the record rewritten, under the filename of
    [determine_filename]; the record keeps or gains an entry whenever no
    fault is injected, and the fault schedule stays empty when it was. *)
Lemma sync_conversation_footprint (c : conversation) (st : sync_state) (w : world) :
  ∃ b st' w' evs,
    sync_conversation c st w = (Some (b, st'), w', evs)
    ∧ (st' = st
       ∨ id c ≠ ""
         ∧ st' = store_entry (id c) (compute_content_hash c)
                   (determine_filename (id c) (current_title c) (created_at c)
                      (conversations st !! id c) st (now w)).1
                   (current_title c) st)
    ∧ running w' = running w ∧ now w' = now w
    ∧ (faults w = [] →
       faults w' = [] ∧ (id c ≠ "" → is_Some (conversations st' !! id c))).
Proof.
  destruct w as [fs ds ck fl rn nw].
  unfold sync_conversation, regenerate, rename_only, preserve_user_metadata,
    upload_and_record, delete_old_file.
  io_unfold; simpl.
  destruct (truthy (id c)) eqn:Hid; simpl.
  - assert (Hne : id c ≠ "").
    { intros Heq. rewrite Heq in Hid. discriminate. }
    io_cases.
    all: do 4 eexists; split; [reflexivity|]; simpl.
    all: split; [first [by left | by right]|].
    all: do 2 (split; [reflexivity|]).
    all: intros Hfl; first [discriminate|try subst fl; split; [reflexivity|intros _]].
    all: first
           [ unfold store_entry; simpl; rewrite lookup_insert_eq; by eexists
           | match goal with
             | Hs : conversations _ !! _ = Some _ |- _ => rewrite Hs; by eexists
             | Hb : bool_decide (is_Some _) && _ && _ = true |- _ =>
                 apply andb_true_iff in Hb as [Hb _];
                 apply andb_true_iff in Hb as [Hb _];
                 by apply bool_decide_eq_true in Hb
             | Hb : title_changed ?cs _ && _ = true |- _ =>
                 apply andb_true_iff in Hb as [Hb _];
                 destruct cs; [by eexists|unfold title_changed in Hb; discriminate]
             end ].
  - do 4 eexists. split; [reflexivity|]. simpl. split; [by left|].
    do 2 (split; [reflexivity|]).
    intros ->. split; [done|]. intros Hne. apply truthy_true in Hne. congruence.
Qed.

(** What follows from the two shapes the returned state can have. *)
Lemma footprint_frame (c : conversation) (st st' : sync_state) (w : world) :
  st' = st
  ∨ id c ≠ ""
    ∧ st' = store_entry (id c) (compute_content_hash c)
              (determine_filename (id c) (current_title c) (created_at c)
                 (conversations st !! id c) st (now w)).1
              (current_title c) st →
  (∀ k, k ≠ id c → conversations st' !! k = conversations st !! k)
  ∧ version st' = version st
  ∧ last_sync st' = last_sync st
  ∧ (md_names st → md_names st').
Proof.
  intros [->|[Hid ->]]; [by split_and!|].
  unfold store_entry. simpl. split_and!; try done.
  - intros k Hk. by rewrite lookup_insert_ne.
  - unfold md_names. simpl. intros Hmd k e.
    destruct (decide (k = id c)) as [->|Hk].
    + rewrite lookup_insert_eq. intros [= <-]. simpl.
      unfold determine_filename.
      destruct (conversations st !! id c) as [cs|] eqn:Hcs;
        [|apply generate_filename_md].
      destruct (truthy (filename cs)); [|apply generate_filename_md].
      destruct (title_changed (Some cs) (current_title c));
        [apply generate_filename_md|].
      simpl. by apply (Hmd (id c)).
    + rewrite lookup_insert_ne by done. apply Hmd.
Qed.


(** *** What the sweep may change *)

Lemma store_has_shrinks (p : string) (w w' : world) :
  files w' ⊆ files w → dirs w' ⊆ dirs w →
  store_has p w = false → store_has p w' = false.
Proof.
  unfold store_has. intros Hf Hd [Hfile Hdir]%orb_false_elim.
  apply bool_decide_eq_false in Hfile. apply bool_decide_eq_false in Hdir.
  apply orb_false_intro; apply bool_decide_eq_false.
  - intros [d Hd']. apply Hfile. exists d.
    by apply (lookup_weaken _ _ _ _ Hd').
  - intros Hin. apply Hdir. by apply Hd.
Qed.

Lemma store_has_removed (p : string) (fs : gmap string string) (ds : gset string)
    (ck : bool) (fl : list bool) (rn : bool) (nw : datetime) :
  store_has p (World (delete p fs) (ds ∖ {[p]}) ck fl rn nw) = false.
Proof.
  unfold store_has. simpl. apply orb_false_intro; apply bool_decide_eq_false.
  - rewrite lookup_delete_eq. by intros [? ?].
  - rewrite elem_of_difference, elem_of_singleton. by intros [_ ?].
Qed.

(** One removal: the entry goes only together with the file, the store
    loses at most that file, and without a fault the entry always goes. *)
Lemma delete_remote_footprint (conv_id fn : string) (st : sync_state) (n : nat)
    (w : world) :
  ∃ n' st' w' evs,
    delete_remote conv_id fn st n w = (Some (n', st'), w', evs)
    ∧ running w' = running w
    ∧ files w' ⊆ files w ∧ dirs w' ⊆ dirs w
    ∧ (∀ p, p ≠ OUTPUT_DIR +:+ "/" +:+ fn → files w' !! p = files w !! p)
    ∧ (st' = st ∧ n' = n
       ∨ st' = drop_entry conv_id st ∧ n' = S n
         ∧ store_has (OUTPUT_DIR +:+ "/" +:+ fn) w' = false)
    ∧ (faults w = [] → faults w' = [] ∧ st' = drop_entry conv_id st).
Proof.
  destruct w as [fs ds ck fl rn nw].
  unfold delete_remote; io_unfold; simpl.
  io_cases.
  all: do 4 eexists; split; [reflexivity|]; simpl.
  all: split_and!; try done.
  all: try apply delete_subseteq.
  all: try apply subseteq_difference_l; try done.
  all: try (intros p Hp; by rewrite lookup_delete_ne).
  all: try (left; by split).
  all: right; split_and!; try done; apply store_has_removed.
Qed.

(** The step the loop takes for one id while no shutdown is requested. *)
Lemma deletion_loop_step (i : string) (rest : list string) (st : sync_state) (n : nat)
    (w : world) (cs : state_entry) :
  running w = true →
  conversations st !! i = Some cs →
  ∃ n1 st1 w1 evs1,
    deletion_loop (i :: rest) st n w
    = (let '(r3, w3, evs3) := deletion_loop rest st1 n1 w1 in (r3, w3, evs1 ++ evs3))
    ∧ running w1 = running w
    ∧ files w1 ⊆ files w ∧ dirs w1 ⊆ dirs w
    ∧ (∀ p, p ≠ OUTPUT_DIR +:+ "/" +:+ filename cs → files w1 !! p = files w !! p)
    ∧ (st1 = st
       ∨ st1 = drop_entry i st
         ∧ (filename cs ≠ "" →
            store_has (OUTPUT_DIR +:+ "/" +:+ filename cs) w1 = false))
    ∧ (faults w = [] → faults w1 = [] ∧ st1 = drop_entry i st)
    ∧ (n1 ≤ S n)%nat.
Proof.
  intros Hrun Hcs.
  cbn [deletion_loop]. io_unfold. simpl. rewrite Hrun, Hcs. simpl.
  destruct (truthy (filename cs)) eqn:Hfn; simpl.
  - destruct (delete_remote_footprint i (filename cs) st n w)
      as (n1 & st1 & w1 & evs1 & -> & Hr & Hf & Hd & Hp & Hst & Hcalm).
    exists n1, st1, w1, evs1. split.
    { by destruct (deletion_loop rest st1 n1 w1) as [[? ?] ?]. }
    split_and!; try done.
    all: destruct Hst as [[-> ->]|(-> & -> & Hgone)];
      first [congruence | lia | by left | right; by split].
  - exists n, (drop_entry i st), w, []. split.
    { by destruct (deletion_loop rest (drop_entry i st) n w) as [[? ?] ?]. }
    split_and!; try done.
    + right. split; [done|]. intros Hne. apply truthy_true in Hne. congruence.
    + lia.
Qed.

(** The loop of the sweep, step by step. *)
Lemma deletion_loop_footprint (ids : list string) :
  ∀ (st : sync_state) (n : nat) (w : world),
    NoDup ids →
    (∀ i, i ∈ ids → is_Some (conversations st !! i)) →
    ∃ n' st' w' evs,
      deletion_loop ids st n w = (Some (n', st'), w', evs)
      ∧ (∀ k, k ∉ ids → conversations st' !! k = conversations st !! k)
      ∧ (∀ k e, conversations st' !! k = Some e → conversations st !! k = Some e)
      ∧ version st' = version st ∧ last_sync st' = last_sync st
      ∧ files w' ⊆ files w ∧ dirs w' ⊆ dirs w
      ∧ (∀ k e, conversations st !! k = Some e → conversations st' !! k = None →
                filename e ≠ "" →
                store_has (OUTPUT_DIR +:+ "/" +:+ filename e) w' = false)
      ∧ (∀ p, (∀ k e, k ∈ ids → conversations st !! k = Some e →
                      p ≠ OUTPUT_DIR +:+ "/" +:+ filename e) →
              files w' !! p = files w !! p)
      ∧ (faults w = [] → running w = true →
         faults w' = [] ∧ ∀ k, k ∈ ids → conversations st' !! k = None)
      ∧ (n' ≤ n + length ids)%nat.
Proof.
  induction ids as [|i rest IH]; intros st n w Hnd Hin.
  - do 4 eexists. split; [reflexivity|]. split_and!; try done.
    all: try (intros; congruence).
    + intros Hfl _. split; [done|]. intros k Hk. inversion Hk.
    + simpl. lia.
  - apply NoDup_cons in Hnd as [Hfresh Hnd].
    destruct (Hin i) as [cs Hcs]; [by left|].
    destruct (running w) eqn:Hrun.
    2:{ cbn [deletion_loop]. io_unfold. simpl. rewrite Hrun. simpl.
        do 4 eexists. split; [reflexivity|]. split_and!; try done.
        all: try (intros; congruence).
        simpl. lia. }
    destruct (deletion_loop_step i rest st n w cs Hrun Hcs)
      as (n1 & st1 & w1 & evs1 & Hred & Hr1 & Hf1 & Hd1 & Hp1 & Hst1 & Hcalm1 & Hn1).
    assert (Hlook1 : ∀ k, k ≠ i → conversations st1 !! k = conversations st !! k).
    { intros k Hk. destruct Hst1 as [->|[-> _]]; [done|].
      simpl. by rewrite lookup_delete_ne. }
    assert (Hsub1 : ∀ k e, conversations st1 !! k = Some e →
                           conversations st !! k = Some e).
    { intros k e. destruct Hst1 as [->|[-> _]]; [done|].
      simpl. by intros [_ ?]%lookup_delete_Some. }
    assert (Hmeta1 : version st1 = version st ∧ last_sync st1 = last_sync st).
    { by destruct Hst1 as [->|[-> _]]. }
    destruct (IH st1 n1 w1 Hnd)
      as (n' & st' & w' & evs & Hloop & Hout & Hsub & Hver & Hlast & Hf & Hd & Hgone
          & Hkeep & Hcalm & Hn).
    { intros j Hj. rewrite Hlook1 by (intros ->; contradiction).
      apply Hin. by right. }
    rewrite Hred, Hloop.
    do 4 eexists. split; [reflexivity|].
    split_and!.
    + intros k Hk. apply not_elem_of_cons in Hk as [Hki Hk].
      by rewrite Hout, Hlook1.
    + intros k e Hk. by apply Hsub1, Hsub.
    + destruct Hmeta1. congruence.
    + destruct Hmeta1. congruence.
    + by transitivity (files w1).
    + by transitivity (dirs w1).
    + intros k e Hk Hnone Hfn.
      destruct (decide (k = i)) as [->|Hki].
      * rewrite Hcs in Hk. injection Hk as <-.
        destruct Hst1 as [->|[-> Hfile]].
        -- rewrite Hout, Hcs in Hnone by done. discriminate.
        -- apply (store_has_shrinks _ w1); auto.
      * apply (Hgone k e); [by rewrite Hlook1|done|done].
    + intros p Hp. rewrite Hkeep, Hp1; [done| |].
      * apply (Hp i cs); [by left|done].
      * intros k e Hk He. apply (Hp k e); [by right|by apply Hsub1].
    + intros Hfl _. destruct (Hcalm1 Hfl) as [Hfl1 ->].
      destruct Hcalm as [Hfl' Hnone]; [done|congruence|].
      split; [done|]. intros k [->|Hk]%elem_of_cons; [|by apply Hnone].
      rewrite Hout by done. simpl. apply lookup_delete_eq.
    + simpl. lia.
Qed.

(** [handle_deletions] as a whole: it returns (the loop never meets a
    missing key), and what holds of the loop holds of it. *)
Lemma handle_deletions_footprint (omi_ids : gset string) (st : sync_state) (w : world) :
  ∃ n st' w' evs,
    handle_deletions omi_ids st w = (Some (n, st'), w', evs)
    ∧ (∀ k, k ∈ omi_ids → conversations st' !! k = conversations st !! k)
    ∧ (∀ k e, conversations st' !! k = Some e → conversations st !! k = Some e)
    ∧ version st' = version st ∧ last_sync st' = last_sync st
    ∧ files w' ⊆ files w ∧ dirs w' ⊆ dirs w
    ∧ (∀ k e, conversations st !! k = Some e → conversations st' !! k = None →
              filename e ≠ "" →
              store_has (OUTPUT_DIR +:+ "/" +:+ filename e) w' = false)
    ∧ (∀ p, (∀ k e, k ∉ omi_ids → conversations st !! k = Some e →
                    p ≠ OUTPUT_DIR +:+ "/" +:+ filename e) →
            files w' !! p = files w !! p)
    ∧ (faults w = [] → running w = true →
       faults w' = [] ∧ dom (conversations st') = dom (conversations st) ∩ omi_ids)
    ∧ (n ≤ size (dom (conversations st) ∖ omi_ids))%nat.
Proof.
  unfold handle_deletions; io_unfold; simpl.
  destruct (bool_decide (dom (conversations st) ∖ omi_ids = ∅)) eqn:Hd; simpl.
  - apply bool_decide_eq_true in Hd.
    do 4 eexists. split; [reflexivity|]. split_and!; try done.
    all: try (intros; congruence).
    + intros Hfl _. split; [done|].
      apply set_eq. intros k. rewrite elem_of_intersection.
      split; [|by intros [? _]]. intros Hk. split; [done|].
      destruct (decide (k ∈ omi_ids)) as [|Hout]; [done|].
      exfalso. apply (not_elem_of_empty (C:=gset string) k).
      rewrite <- Hd. by apply elem_of_difference.
    + lia.
  - set (ids := elements (dom (conversations st) ∖ omi_ids)).
    destruct (deletion_loop_footprint ids st 0 w)
      as (n & st' & w' & evs & -> & Hout & Hsub & Hver & Hlast & Hf & Hdirs & Hgone
          & Hkeep & Hcalm & Hn).
    { apply NoDup_elements. }
    { intros i Hi%elem_of_elements. apply elem_of_dom.
      by apply elem_of_difference in Hi as [Hi _]. }
    do 4 eexists. split; [reflexivity|]. split_and!; try done.
    + intros k Hk. apply Hout. intros Hin%elem_of_elements.
      by apply elem_of_difference in Hin as [_ ?].
    + intros p Hp. apply Hkeep. intros k e Hk%elem_of_elements He.
      apply elem_of_difference in Hk as [_ Hk]. by apply (Hp k e).
    + intros Hfl Hrun. destruct (Hcalm Hfl Hrun) as [Hfl' Hnone].
      split; [done|]. apply set_eq. intros k.
      rewrite elem_of_intersection, !elem_of_dom.
      destruct (decide (k ∈ omi_ids)) as [Hin|Hnin].
      * rewrite Hout; [tauto|]. intros Hk%elem_of_elements.
        by apply elem_of_difference in Hk as [_ ?].
      * split; [|tauto]. intros [e He]. exfalso.
        assert (Hk : k ∈ ids).
        { apply elem_of_elements, elem_of_difference. split; [|done].
          apply elem_of_dom. exists e. by apply Hsub. }
        rewrite (Hnone k Hk) in He. discriminate.
Qed.

(** X2: the sweep never raises and never touches what was fetched: the
    entries of fetched ids are as before, no entry is added or altered,
    the version and the time of the last sync are kept, [.md] names stay
    [.md] names, and at most as many deletions are counted as ids of the
    state are missing from the fetch. *)
Theorem sweep_spares_fetched_entries (omi_ids : gset string) (st : sync_state)
    (w : world) :
  ∃ n st' w' evs,
    handle_deletions omi_ids st w = (Some (n, st'), w', evs)
    ∧ (∀ k, k ∈ omi_ids → conversations st' !! k = conversations st !! k)
    ∧ (∀ k e, conversations st' !! k = Some e → conversations st !! k = Some e)
    ∧ version st' = version st ∧ last_sync st' = last_sync st
    ∧ (md_names st → md_names st')
    ∧ (n ≤ size (dom (conversations st) ∖ omi_ids))%nat.
Proof.
  destruct (handle_deletions_footprint omi_ids st w)
    as (n & st' & w' & evs & Hrun & Hin & Hsub & Hver & Hlast & _ & _ & _ & _ & _ & Hn).
  exists n, st', w', evs. split_and!; try done.
  intros Hmd k e He. apply (Hmd k). by apply Hsub.
Qed.

(** X3: the sweep forgets an entry only when its file is out of the store:
    whatever faults are injected, an entry with a filename that is gone
    from the state after the sweep has no file (and no directory) at its
    path any more; the store only loses files, and a path that belongs to
    no entry of a vanished id keeps its bytes. *)
Theorem sweep_forgets_only_removed_files (omi_ids : gset string) (st : sync_state)
    (w : world) :
  ∃ n st' w' evs,
    handle_deletions omi_ids st w = (Some (n, st'), w', evs)
    ∧ files w' ⊆ files w
    ∧ (∀ k e, conversations st !! k = Some e → conversations st' !! k = None →
              filename e ≠ "" →
              store_has (OUTPUT_DIR +:+ "/" +:+ filename e) w' = false)
    ∧ (∀ p, (∀ k e, k ∉ omi_ids → conversations st !! k = Some e →
                    p ≠ OUTPUT_DIR +:+ "/" +:+ filename e) →
            files w' !! p = files w !! p).
Proof.
  destruct (handle_deletions_footprint omi_ids st w)
    as (n & st' & w' & evs & Hrun & _ & _ & _ & _ & Hf & _ & Hgone & Hkeep & _).
  exists n, st', w', evs. by split_and!.
Qed.

(** *** What a cycle may change *)

Lemma omi_conv_ids_cons (c : conversation) (rest : list conversation) :
  omi_conv_ids (c :: rest) = own_id c ∪ omi_conv_ids rest.
Proof.
  unfold omi_conv_ids, own_id. rewrite fmap_cons, filter_cons.
  destruct (decide (id c ≠ "")) as [Hid|Hid].
  - rewrite decide_False by done. by rewrite list_to_set_cons.
  - rewrite decide_True; [by rewrite union_empty_l_L|].
    by destruct (decide (id c = "")).
Qed.

Lemma elem_of_own_id (c : conversation) (k : string) :
  k ∈ own_id c ↔ k = id c ∧ id c ≠ "".
Proof.
  unfold own_id. destruct (decide (id c = "")) as [Hid|Hid].
  - rewrite elem_of_empty. tauto.
  - rewrite elem_of_singleton. tauto.
Qed.

(** The loop over the records: entries of ids that were not fetched are
    out of its reach; without faults every fetched id ends with an entry;
    under a shutdown request nothing happens. *)
Lemma sync_loop_footprint (fetched : list conversation) :
  ∀ (st : sync_state) (created updated skipped : nat) (w : world),
    ∃ created' updated' skipped' st' w' evs,
      sync_loop fetched st created updated skipped w
      = (Some (created', updated', skipped', st'), w', evs)
      ∧ (∀ k, k ∉ omi_conv_ids fetched →
              conversations st' !! k = conversations st !! k)
      ∧ version st' = version st ∧ last_sync st' = last_sync st
      ∧ (md_names st → md_names st')
      ∧ now w' = now w
      ∧ (faults w = [] → running w = true →
         faults w' = []
         ∧ dom (conversations st') = dom (conversations st) ∪ omi_conv_ids fetched)
      ∧ (running w = false → st' = st ∧ w' = w ∧ existsb is_store evs = false).
Proof.
  induction fetched as [|c rest IH]; intros st cr up sk w.
  - do 6 eexists. split; [reflexivity|]. split_and!; try done.
    intros Hfl _. split; [done|].
    unfold omi_conv_ids. simpl. by rewrite union_empty_r_L.
  - cbn [sync_loop]. io_unfold. simpl.
    destruct (running w) eqn:Hrun; simpl.
    2:{ do 6 eexists. split; [reflexivity|]. split_and!; try done. }
    destruct (sync_conversation_footprint c st w)
      as (b & st1 & w1 & evs1 & -> & Hst1 & Hr1 & Hn1 & Hcalm1).
    destruct (footprint_frame c st st1 w Hst1) as (Hout1 & Hver1 & Hlast1 & Hmd1).
    assert (Hnext : ∃ cr1 up1 sk1 cr' up' sk' st' w' evs,
               sync_loop rest st1 cr1 up1 sk1 w1
               = (Some (cr', up', sk', st'), w', evs)
               ∧ (if b
                  then if bool_decide (is_Some (conversations st !! id c))
                       then sync_loop rest st1 cr (S up) sk
                       else sync_loop rest st1 (S cr) up sk
                  else sync_loop rest st1 cr up (S sk)) w1
                 = sync_loop rest st1 cr1 up1 sk1 w1
               ∧ (∀ k, k ∉ omi_conv_ids rest →
                       conversations st' !! k = conversations st1 !! k)
               ∧ version st' = version st1 ∧ last_sync st' = last_sync st1
               ∧ (md_names st1 → md_names st')
               ∧ now w' = now w1
               ∧ (faults w1 = [] → running w1 = true →
                  faults w' = []
                  ∧ dom (conversations st')
                    = dom (conversations st1) ∪ omi_conv_ids rest)).
    { destruct b; [destruct (bool_decide (is_Some (conversations st !! id c)))|].
      all: match goal with
           | |- context [sync_loop _ ?s ?a ?b ?c ?ww = sync_loop _ _ _ _ _ _] =>
               destruct (IH s a b c ww)
                 as (cr' & up' & sk' & st' & w' & evs & Hloop & Hout & Hver & Hlast
                     & Hmd & Hnow & Hcalm & _);
               exists a, b, c, cr', up', sk', st', w', evs
           end.
      all: by split_and!. }
    destruct Hnext as (cr1 & up1 & sk1 & cr' & up' & sk' & st' & w' & evs & Hloop & ->
                       & Hout & Hver & Hlast & Hmd & Hnow & Hcalm).
    rewrite Hloop.
    do 6 eexists. split; [reflexivity|]. split_and!.
    + intros k Hk. rewrite omi_conv_ids_cons, not_elem_of_union, elem_of_own_id in Hk.
      destruct Hk as [Hown Hk]. rewrite (Hout k Hk).
      destruct Hst1 as [->|[Hid ->]]; [done|].
      unfold store_entry. simpl. rewrite lookup_insert_ne; [done|].
      intros <-. by apply Hown.
    + congruence.
    + congruence.
    + auto.
    + congruence.
    + intros Hfl _. destruct (Hcalm1 Hfl) as [Hfl1 Hsome].
      destruct Hcalm as [Hfl' Hdom]; [done|congruence|].
      split; [done|]. rewrite Hdom, omi_conv_ids_cons.
      assert (Hstep : dom (conversations st1) = dom (conversations st) ∪ own_id c).
      { unfold own_id. destruct (decide (id c = "")) as [Hid|Hid].
        - destruct Hst1 as [->|[Hne _]]; [|contradiction].
          by rewrite union_empty_r_L.
        - destruct Hst1 as [->|[_ ->]].
          + apply set_eq. intros k. rewrite elem_of_union, elem_of_singleton.
            split; [tauto|]. intros [?| ->]; [done|].
            apply elem_of_dom. by apply Hsome.
          + unfold store_entry. simpl. rewrite dom_insert_L.
            apply set_eq. intros k. rewrite !elem_of_union. tauto. }
      rewrite Hstep. by rewrite (assoc_L (∪)).
    + discriminate.
Qed.

Lemma ensure_output_directory_calm (w : world) :
  faults w = [] →
  ∃ w' evs,
    ensure_output_directory w = (Some true, w', evs)
    ∧ faults w' = [] ∧ running w' = running w ∧ now w' = now w
    ∧ store_has OUTPUT_DIR w' = true
    ∧ existsb mutates evs = false.
Proof.
  destruct w as [fs ds ck fl rn nw]. simpl. intros ->.
  unfold ensure_output_directory; io_unfold; simpl.
  destruct (store_has OUTPUT_DIR _) eqn:Hhas; simpl.
  - do 2 eexists. split; [reflexivity|]. by split_and!.
  - do 2 eexists. split; [reflexivity|]. split_and!; try done.
    unfold store_has. simpl. apply orb_true_iff. right.
    apply bool_decide_eq_true. apply elem_of_union. left. by apply elem_of_singleton.
Qed.

(** X4: after a cycle that meets no fault (the client is built, no Store
    call fails, no shutdown is requested), the state tracks exactly the
    fetched records that have an id: ids that were not fetched are gone
    and every fetched id has an entry.  In particular a successful fetch
    of the empty list leaves no entry at all. *)
Theorem fault_free_cycle_tracks_fetched_ids (fetched : list conversation)
    (st : sync_state) (w : world) :
  client_ok w = true →
  faults w = [] →
  running w = true →
  ∃ st' w' evs,
    run_sync_cycle (Some fetched) st w = (Some st', w', evs)
    ∧ dom (conversations st') = omi_conv_ids fetched
    ∧ (fetched = [] → conversations st' = ∅ ∧ last_sync st' = last_sync st)
    ∧ (fetched ≠ [] → last_sync st' = Some (isoformat (now w))).
Proof.
  intros Hck Hfl Hgo.
  unfold run_sync_cycle. io_unfold. simpl. rewrite Hck. simpl.
  destruct (ensure_output_directory_calm w Hfl)
    as (w1 & evs1 & -> & Hfl1 & Hr1 & Hn1 & _ & _).
  simpl.
  destruct (handle_deletions_outcome (omi_conv_ids fetched) st w1)
    as (n & st1 & w2 & sweep & Hsweep & Hr2 & Hn2 & _).
  destruct (handle_deletions_footprint (omi_conv_ids fetched) st w1)
    as (n' & st1' & w2' & evs2 & Hsweep' & _ & _ & _ & Hlast1 & _ & _ & _ & _ & Hcalm1 & _).
  rewrite Hsweep in Hsweep'. injection Hsweep' as <- <- <- <-.
  rewrite Hsweep.
  destruct (Hcalm1 Hfl1 (eq_trans Hr1 Hgo)) as [Hfl2 Hdom1].
  destruct (sync_loop_footprint fetched st1 0 0 0 w2)
    as (cr & up & sk & st2 & w3 & evs3 & Hloop & _ & _ & Hlast2 & _ & Hn3 & Hcalm2 & _).
  destruct Hcalm2 as [_ Hdom2]; [done|congruence|].
  destruct fetched as [|c rest].
  - do 3 eexists. split; [reflexivity|]. split_and!.
    + rewrite Hdom1. unfold omi_conv_ids. simpl. by rewrite intersection_empty_r_L.
    + intros _. split; [|done]. apply dom_empty_iff_L.
      rewrite Hdom1. unfold omi_conv_ids. simpl. by rewrite intersection_empty_r_L.
    + done.
  - rewrite Hloop. do 3 eexists. split; [reflexivity|]. simpl. split_and!.
    + rewrite Hdom2, Hdom1. apply set_eq. intros k.
      rewrite elem_of_union, elem_of_intersection. tauto.
    + discriminate.
    + intros _. congruence.
Qed.

(** The loop of the sweep under a shutdown request. *)
Lemma deletion_loop_stopped (ids : list string) (st : sync_state) (n : nat) (w : world) :
  running w = false →
  ∃ evs, deletion_loop ids st n w = (Some (n, st), w, evs) ∧ evs = [].
Proof.
  intros Hstop. exists []. split; [|done].
  destruct ids as [|i rest]; [reflexivity|].
  cbn [deletion_loop]. io_unfold. simpl. by rewrite Hstop.
Qed.

(** X5: a cycle that runs while a shutdown is requested changes nothing
    that matters: whatever the fetch returned (the fetch itself returns
    the pages gathered so far, not the failure value, when it is
    interrupted), no write, move or remove is issued, the files of the
    store and the entries of the state are as before. *)
Theorem shutdown_cycle_changes_no_entry (fetch_result : option (list conversation))
    (st : sync_state) (w : world) :
  running w = false →
  ∃ st' w' evs,
    run_sync_cycle fetch_result st w = (Some st', w', evs)
    ∧ existsb mutates evs = false
    ∧ conversations st' = conversations st
    ∧ files w' = files w.
Proof.
  intros Hstop.
  unfold run_sync_cycle. io_unfold. simpl.
  destruct (client_ok w); simpl.
  2:{ do 3 eexists. split; [reflexivity|]. by split_and!. }
  destruct (ensure_output_directory_outcome w)
    as (ok & w1 & evs1 & -> & Hr1 & _ & _ & Hf1 & _ & Hm1).
  destruct ok; simpl.
  2:{ do 3 eexists. split; [reflexivity|]. simpl.
      rewrite ?existsb_app, ?Hm1. by split_and!. }
  destruct fetch_result as [fetched|]; simpl.
  2:{ do 3 eexists. split; [reflexivity|]. simpl.
      rewrite ?existsb_app, ?Hm1. by split_and!. }
  assert (Hstop1 : running w1 = false) by congruence.
  unfold handle_deletions. io_unfold. simpl.
  destruct (sync_loop_footprint fetched st 0 0 0 w1)
    as (cr & up & sk & st2 & w3 & evs3 & Hloop & _ & _ & _ & _ & _ & _ & Hidle).
  destruct (Hidle Hstop1) as (-> & -> & Hquiet).
  assert (Hquiet' : existsb mutates evs3 = false).
  { revert Hquiet. apply existsb_weaken. by intros [[]| |]. }
  destruct (bool_decide (dom (conversations st) ∖ omi_conv_ids fetched = ∅)); simpl.
  - destruct fetched as [|c rest]; [|rewrite Hloop].
    all: do 3 eexists; split; [reflexivity|]; simpl.
    all: repeat (rewrite ?existsb_app, ?Hm1, ?Hquiet'; simpl).
    all: by split_and!.
  - destruct (deletion_loop_stopped
                (elements (dom (conversations st) ∖ omi_conv_ids fetched)) st 0 w1 Hstop1)
      as (evs2 & -> & ->).
    destruct fetched as [|c rest]; [|rewrite Hloop].
    all: do 3 eexists; split; [reflexivity|]; simpl.
    all: repeat (rewrite ?existsb_app, ?Hm1, ?Hquiet'; simpl).
    all: by split_and!.
Qed.

(** *** The output directory *)

(** X6: [ensure_output_directory] never raises and never touches a file.
    When it answers [True] the directory is in the store; when it answers
    [False] a Store call has failed and the store is as before; and it
    asks for no [mkdir] when the directory is already there. *)
Theorem ensure_output_directory_guarantee (w : world) :
  ∃ ok w' evs,
    ensure_output_directory w = (Some ok, w', evs)
    ∧ files w' = files w
    ∧ dirs w ⊆ dirs w'
    ∧ existsb mutates evs = false
    ∧ (ok = true → store_has OUTPUT_DIR w' = true)
    ∧ (ok = false → dirs w' = dirs w ∧ existsb failed evs = true)
    ∧ (store_has OUTPUT_DIR w = true → ∀ r, Store (OpMkdir OUTPUT_DIR) r ∉ evs).
Proof.
  destruct w as [fs ds ck fl rn nw].
  unfold ensure_output_directory; io_unfold; simpl.
  io_cases.
  all: do 3 eexists; split; [reflexivity|]; simpl.
  all: unfold store_has in *; simpl in *.
  all: split_and!; try done.
  all: try (intros; congruence).
  all: try apply union_subseteq_r.
  all: try (intros _; apply orb_true_iff; right; apply bool_decide_eq_true;
            apply elem_of_union; left; by apply elem_of_singleton).
  all: try (intros _ r; absent_event).
  all: try (intros Hthere; rewrite Hthere in *; discriminate).
  all: intros _; by apply negb_false_iff.
Qed.

(** *** A whole cycle *)


(** *** The shape of a sanitized title *)

Lemma has_double_space_tail (a : ascii) (s : string) :
  has_double_space (String a s) = false → has_double_space s = false.
Proof.
  destruct s as [|b s]; [done|].
  cbn [has_double_space]. by intros [_ ?]%orb_false_elim.
Qed.

Lemma lstrip_head (s : string) (a : ascii) (t : string) :
  lstrip s = String a t → is_space a = false.
Proof.
  induction s as [|b s IH]; cbn [lstrip]; [done|].
  destruct (is_space b) eqn:Hb; [done|]. by intros [= <- _].
Qed.

Lemma lstrip_fixed (s : string) :
  (∀ a t, s = String a t → is_space a = false) → lstrip s = s.
Proof.
  destruct s as [|a s]; [done|]. intros Hhead.
  cbn [lstrip]. by rewrite (Hhead a s).
Qed.

Lemma rstrip_head (s : string) (a : ascii) (t : string) :
  rstrip s = String a t → ∃ t', s = String a t'.
Proof.
  destruct s as [|b s]; cbn [rstrip]; [done|].
  destruct (rstrip s); [destruct (is_space b); [done|]|].
  all: intros [= <- _]; by eexists.
Qed.

Lemma rstrip_idemp (s : string) : rstrip (rstrip s) = rstrip s.
Proof.
  induction s as [|a s IH]; [done|].
  cbn [rstrip]. destruct (rstrip s) as [|b r] eqn:Hr.
  - destruct (is_space a) eqn:Ha; [done|]. cbn [rstrip]. by rewrite Ha.
  - cbn [rstrip]. cbn [rstrip] in IH. by rewrite IH.
Qed.

Lemma strip_idemp (s : string) : strip (strip s) = strip s.
Proof.
  unfold strip. rewrite (lstrip_fixed (rstrip (lstrip s))); [apply rstrip_idemp|].
  intros a t [t' Ht]%rstrip_head. by apply lstrip_head in Ht.
Qed.

Lemma lstrip_no_double_space (s : string) :
  has_double_space s = false → has_double_space (lstrip s) = false.
Proof.
  induction s as [|a s IH]; [done|]. intros Hs.
  cbn [lstrip]. destruct (is_space a); [|done].
  by apply IH, (has_double_space_tail a).
Qed.

Lemma rstrip_no_double_space (s : string) :
  has_double_space s = false → has_double_space (rstrip s) = false.
Proof.
  induction s as [|a s IH]; [done|]. intros Hs.
  pose proof (has_double_space_tail a s Hs) as Htail.
  cbn [rstrip]. destruct (rstrip s) as [|b r] eqn:Hr.
  - by destruct (is_space a).
  - destruct (rstrip_head s b r Hr) as [t' ->].
    cbn [has_double_space] in Hs. apply orb_false_elim in Hs as [Hab _].
    change (has_double_space (String a (String b r)))
      with ((Ascii.eqb a " " && Ascii.eqb b " ") || has_double_space (String b r)).
    rewrite Hab. simpl. by apply IH.
Qed.

Lemma strip_no_double_space (s : string) :
  has_double_space s = false → has_double_space (strip s) = false.
Proof. intros Hs. by apply rstrip_no_double_space, lstrip_no_double_space. Qed.

(** X8: whatever the two library sanitizers return, [sanitize_title]
    yields a usable base name: it is never empty, stripping it again
    changes nothing (no white space at either end), it holds no two
    spaces in a row, and a title that is empty or blank becomes
    [Untitled]. *)
Theorem sanitize_title_shape (t : string) :
  sanitize_title t ≠ ""
  ∧ strip (sanitize_title t) = sanitize_title t
  ∧ has_double_space (sanitize_title t) = false
  ∧ (strip t = "" → sanitize_title t = "Untitled").
Proof.
  unfold sanitize_title.
  destruct (truthy t) eqn:Ht; simpl; [|by split_and!].
  destruct (truthy (strip t)) eqn:Hst; simpl; [|by split_and!].
  set (x := strip (collapse_spaces (sanitize_filename (normalize_nfc (strip t))))).
  assert (Hx : strip x = x) by apply strip_idemp.
  assert (Hd : has_double_space x = false).
  { apply strip_no_double_space, collapse_spaces_done. }
  destruct (truthy x) eqn:Hxt.
  - split_and!; try done.
    + intros Hempty. rewrite Hempty in Hxt. discriminate.
    + intros Hblank. rewrite Hblank in Hst. discriminate.
  - by split_and!.
Qed.

(** *** Regeneration and the store *)

Lemma remote_path_inj (a b : string) :
  OUTPUT_DIR +:+ "/" +:+ a = OUTPUT_DIR +:+ "/" +:+ b → a = b.
Proof. intros Heq%append_inj_l. by injection Heq. Qed.

(** [regenerate] answers [True] only with the document uploaded and still
    in place under the new name, and [False] only with state and files
    untouched. *)
Lemma regenerate_outcome (c : conversation) (h fn : string) (old : option string)
    (cs : option state_entry) (st : sync_state) (w : world) :
  ∃ b st' w' evs,
    regenerate c h fn old cs st w = (Some (b, st'), w', evs)
    ∧ (b = true →
       st' = store_entry (id c) h fn (current_title c) st
       ∧ ∃ data,
           Store (OpUpload (OUTPUT_DIR +:+ "/" +:+ fn) data) true ∈ evs
           ∧ files w' !! (OUTPUT_DIR +:+ "/" +:+ fn) = Some data)
    ∧ (b = false → st' = st ∧ files w' = files w ∧ dirs w' = dirs w).
Proof.
  destruct w as [fs ds ck fl rn nw].
  unfold regenerate, preserve_user_metadata, upload_and_record, delete_old_file.
  io_unfold; simpl.
  io_cases.
  all: do 4 eexists; split; [reflexivity|]; simpl.
  all: split; [|by (intros [=] || (intros _; split_and!))].
  all: first [discriminate | intros _; split; [reflexivity|]].
  all: eexists; split;
    [ repeat first [ apply list_elem_of_here | apply list_elem_of_further ] |].
  all: rewrite ?lookup_delete_ne; [apply lookup_insert_eq|..].
  all: intros Heq%remote_path_inj;
    match goal with
    | Hb : bool_decide (_ ≠ _) = true |- _ => apply bool_decide_eq_true in Hb; by apply Hb
    end.
Qed.

(** X9: a record that is new, or whose content changed, is regenerated,
    and [sync_conversation] answers [True] for it only with the document
    written and still in the store under the filename it records, with
    the hash and the title of the record; the removal of an old file
    never hits the file just written.  It answers [False] only with the
    state and the store as they were. *)
Theorem regeneration_leaves_the_document_in_place (c : conversation) (st : sync_state)
    (w : world) :
  id c ≠ "" →
  content_changed (conversations st !! id c) (compute_content_hash c) = true →
  ∃ b st' w' evs,
    sync_conversation c st w = (Some (b, st'), w', evs)
    ∧ (b = true →
       ∃ e data,
         conversations st' !! id c = Some e
         ∧ omi_hash e = compute_content_hash c
         ∧ title e = current_title c
         ∧ Store (OpUpload (OUTPUT_DIR +:+ "/" +:+ filename e) data) true ∈ evs
         ∧ files w' !! (OUTPUT_DIR +:+ "/" +:+ filename e) = Some data)
    ∧ (b = false → st' = st ∧ files w' = files w ∧ dirs w' = dirs w).
Proof.
  intros Hid Hc.
  destruct (sync_conversation_regenerates c st w Hid (or_introl Hc))
    as (pre & Hpre & ->).
  set (plan := determine_filename (id c) (current_title c) (created_at c)
                 (conversations st !! id c) st (now w)).
  destruct (regenerate_outcome c (compute_content_hash c) plan.1 plan.2
              (conversations st !! id c) st w)
    as (b & st' & w' & evs & -> & Hyes & Hno).
  do 4 eexists. split; [reflexivity|]. split; [|exact Hno].
  intros Hb. destruct (Hyes Hb) as (-> & data & Hup & Hfile).
  eexists _, data. unfold store_entry. simpl. rewrite lookup_insert_eq.
  split_and!; try done.
  apply list_elem_of_further, elem_of_app. by right.
Qed.

(** *** The body of the document *)

(** X10: a transcript segment whose text is blank leaves no line in the
    document, so beside other segments it changes nothing; but it still
    counts as a segment: a record whose only segment is blank gets the
    transcript heading with nothing under it. *)
Theorem blank_segments_leave_no_line (c : conversation) (blank : segment)
    (before after : list segment) (h : string) (clock : datetime) :
  strip (text blank) = "" →
  let with_segments segs := Conversation (id c) (created_at c) (structured c) segs in
  (before ++ after ≠ [] →
   generate_markdown (with_segments (before ++ blank :: after)) h clock
   = generate_markdown (with_segments (before ++ after)) h clock)
  ∧ build_body (with_segments [blank])
    = build_body (with_segments []) +:+ newline +:+ newline +:+ "## Transcript" +:+ newline.
Proof.
  intros Hblank with_segments.
  assert (Hline : segment_line blank = []).
  { unfold segment_line. by rewrite Hblank. }
  split.
  - intros Hsome. unfold generate_markdown. f_equal. f_equal.
    unfold build_body, with_segments. cbn [transcript_segments structured].
    assert (Hlines : concat (segment_line <$> before ++ blank :: after)
                     = concat (segment_line <$> before ++ after)).
    { rewrite !fmap_app, fmap_cons, !concat_app, concat_cons. by rewrite Hline. }
    destruct (before ++ after) as [|s rest] eqn:Hrest; [done|].
    destruct (before ++ blank :: after) as [|s' rest'] eqn:Hfull.
    { by destruct before. }
    by rewrite Hlines.
  - unfold build_body, with_segments. simpl. rewrite Hline. simpl.
    by destruct (truthy _).
Qed.

(** X11: when no file is found at the metadata source path, or one of the
    two Store calls that look for it and read it fails, the regeneration
    goes on all the same: exactly one write is attempted, to the path of
    the record, and it carries the generated document as it is; the
    answer of [regenerate] is whether that write went through. *)
Theorem regeneration_without_source_uploads_as_generated (c : conversation)
    (content_hash fn : string) (old_filename : option string)
    (conv_state : option state_entry) (st : sync_state) (w : world) :
  let source := OUTPUT_DIR +:+ "/" +:+ default fn old_filename in
  let generated := generate_markdown c content_hash (now w) in
  files w !! source = None ∨ calm 2 w = false →
  ∃ b st' w' evs,
    regenerate c content_hash fn old_filename conv_state st w = (Some (b, st'), w', evs)
    ∧ List.filter is_upload evs = [Store (OpUpload (OUTPUT_DIR +:+ "/" +:+ fn) generated) b].
Proof.
  intros source generated Hwhy.
  destruct w as [fs ds ck fl rn nw]. simpl in Hwhy, generated.
  unfold regenerate, preserve_user_metadata, upload_and_record, delete_old_file.
  io_unfold. simpl.
  fold source. fold generated.
  io_cases.
  all: try (exfalso; destruct Hwhy as [Hnone|Hfault];
            [congruence|vm_compute in Hfault; discriminate]).
  all: do 4 eexists; split; reflexivity.
Qed.

End Properties.

(** *** Fetching *)

Section FetchProperties.
Variable py_int : string → option Z.

(** The loop goes through a prefix of turns that all go on, gathering
    their pages and moving the offset by one page size per page. *)
Lemma fetch_loop_goes_on (pre rest : list turn) :
  Forall (goes_on py_int) pre →
  ∀ gathered offset,
    ∃ evs,
      fetch_loop py_int (pre ++ rest) gathered offset
      = (let '(outcome, evs') :=
           fetch_loop py_int rest (gathered ++ concat (pages_of pre))
             (offset + length (pages_of pre) * OMI_PAGE_SIZE) in
         (outcome, evs ++ evs'))
      ∧ length (offsets_of evs) = length pre.
Proof.
  induction 1 as [|t pre Ht Hpre IH]; intros gathered offset.
  - exists []. simpl. rewrite app_nil_r, Nat.add_0_r.
    by destruct (fetch_loop _ _ _ _).
  - destruct t as [|[header| |page]]; try done.
    + destruct Ht as (n & Hn & Hpos).
      destruct (IH gathered offset) as (evs & Heq & Hlen).
      eexists (_ :: _ :: _ :: evs). cbn [app fetch_loop]. rewrite Hn.
      rewrite (proj2 (Z.ltb_ge n 0) Hpos). rewrite Heq. clear Heq.
      change (pages_of (Reply (TooManyRequests header) :: pre)) with (pages_of pre).
      split; [by destruct (fetch_loop py_int rest _ _)|].
      change (S (length (offsets_of evs)) = S (length pre)). by rewrite Hlen.
    + simpl in Ht.
      destruct page as [|c page]; [simpl in Ht; unfold OMI_PAGE_SIZE in Ht; lia|].
      destruct (IH (gathered ++ c :: page) (offset + OMI_PAGE_SIZE))
        as (evs & Heq & Hlen).
      eexists (_ :: _ :: _ :: evs). cbn [app fetch_loop].
      rewrite (proj2 (Nat.ltb_ge _ _) Ht). rewrite Heq. clear Heq.
      change (pages_of (Reply (Json (c :: page)) :: pre))
        with ((c :: page) :: pages_of pre).
      cbn [concat length]. rewrite (assoc_L (++)).
      replace (offset + OMI_PAGE_SIZE + length (pages_of pre) * OMI_PAGE_SIZE)
        with (offset + S (length (pages_of pre)) * OMI_PAGE_SIZE) by lia.
      split; [by destruct (fetch_loop py_int rest _ _)|].
      change (S (length (offsets_of evs)) = S (length pre)). by rewrite Hlen.
Qed.

(** X12: a request that fails makes [fetch_conversations] return [None],
    however many full pages it has gathered before: a fetch that broke in
    the middle never passes for a short list. *)
Theorem failed_request_discards_the_pages (pre rest : list turn) :
  Forall (goes_on py_int) pre →
  (fetch_conversations py_int (pre ++ Reply RequestException :: rest)).1 = Returned None.
Proof.
  intros Hpre. unfold fetch_conversations.
  destruct (fetch_loop_goes_on pre (Reply RequestException :: rest) Hpre [] 0)
    as (evs & -> & _).
  reflexivity.
Qed.

(** X13: a shutdown request seen between two requests makes
    [fetch_conversations] return the pages gathered so far, as a list and
    not as [None], and without a further request. *)
Theorem interrupted_fetch_returns_the_pages_so_far (pre rest : list turn) :
  Forall (goes_on py_int) pre →
  ∃ evs,
    fetch_conversations py_int (pre ++ ShutdownRequested :: rest)
    = (Returned (Some (concat (pages_of pre))), evs)
    ∧ length (offsets_of evs) = length pre.
Proof.
  intros Hpre. unfold fetch_conversations.
  destruct (fetch_loop_goes_on pre (ShutdownRequested :: rest) Hpre [] 0)
    as (evs & -> & Hlen).
  eexists. split; [reflexivity|].
  unfold offsets_of in *. rewrite omap_app. rewrite length_app, Hlen. simpl. lia.
Qed.

(** X14: a 429 whose [Retry-After] is not an integer, or is a negative one,
    makes [fetch_conversations] raise instead of returning [None]. *)
Theorem bad_retry_after_escapes (pre rest : list turn) (header : option string) :
  Forall (goes_on py_int) pre →
  py_int (default "60" header) = None
  ∨ (∃ n, py_int (default "60" header) = Some n ∧ (n < 0)%Z) →
  (fetch_conversations py_int (pre ++ Reply (TooManyRequests header) :: rest)).1 = Raised.
Proof.
  intros Hpre Hbad. unfold fetch_conversations.
  destruct (fetch_loop_goes_on pre (Reply (TooManyRequests header) :: rest) Hpre [] 0)
    as (evs & -> & _).
  cbn [fetch_loop].
  destruct Hbad as [->|(n & -> & Hneg)]; [done|].
  by rewrite (proj2 (Z.ltb_lt n 0) Hneg).
Qed.



(** The loop against a server that holds [held], from request [k] on. *)
Lemma fetch_loop_serve (held : list conversation) (rest : list turn) (n : nat) :
  ∀ k,
    (k * OMI_PAGE_SIZE ≤ length held)%nat →
    (length held < (k + n) * OMI_PAGE_SIZE)%nat →
    ∃ evs,
      fetch_loop py_int (map (serve held) (seq k n) ++ rest)
        (take (k * OMI_PAGE_SIZE) held) (k * OMI_PAGE_SIZE)
      = (Returned (Some held), evs)
      ∧ offsets_of evs
        = map (λ j, j * OMI_PAGE_SIZE) (seq k (S (length held / OMI_PAGE_SIZE) - k)).
Proof.
  unfold OMI_PAGE_SIZE.
  induction n as [|n IH]; intros k Hlow Hhigh; [lia|].
  cbn [seq map app fetch_loop serve]. unfold OMI_PAGE_SIZE.
  remember (take 25 (drop (k * 25) held)) as page eqn:Hdef.
  assert (Hpage : length page = (length held - k * 25) `min` 25).
  { rewrite Hdef, length_take, length_drop. lia. }
  assert (Hjoin : take (k * 25) held ++ page = take ((k + 1) * 25) held).
  { rewrite Hdef, take_take_drop. f_equal. lia. }
  clear Hdef.
  destruct page as [|c more].
  - simpl in Hpage. assert (Hall : length held = k * 25) by lia.
    eexists. split.
    + rewrite take_ge by lia. reflexivity.
    + replace (S (length held / 25) - k) with 1; [done|].
      rewrite Hall, Nat.div_mul by done. lia.
  - rewrite Hjoin.
    destruct (length (c :: more) <? 25)%nat eqn:Hshort.
    + apply Nat.ltb_lt in Hshort.
      eexists. split.
      * rewrite take_ge by lia. reflexivity.
      * replace (S (length held / 25) - k) with 1; [done|].
        assert (length held / 25 = k); [|lia].
        symmetry. apply (Nat.div_unique _ _ _ (length held - k * 25)); lia.
    + apply Nat.ltb_ge in Hshort.
      destruct (IH (S k)) as (evs & Heq & Hoff); [lia|lia|].
      replace (k * 25 + 25) with (S k * 25) by lia.
      replace ((k + 1) * 25) with (S k * 25) by lia.
      rewrite Heq. eexists. split; [reflexivity|].
      assert (Hk : (S k ≤ length held / 25)%nat).
      { apply Nat.div_le_lower_bound; lia. }
      replace (S (length held / 25) - k) with (S (S (length held / 25) - S k)) by lia.
      cbn [seq map]. rewrite <- Hoff. reflexivity.
Qed.

(** X16: pagination round trip.  Against a server that holds a list and
    answers the request at each offset with the slice of 25 records
    found there, [fetch_conversations] returns exactly that list, and the
    offsets it asks for are 0, 25, 50, ... up to the first slice that is
    short or empty. *)
Theorem pagination_round_trip (held : list conversation) (rest : list turn) (n : nat) :
  (length held / OMI_PAGE_SIZE < n)%nat →
  ∃ evs,
    fetch_conversations py_int (map (serve held) (seq 0 n) ++ rest)
    = (Returned (Some held), evs)
    ∧ offsets_of evs
      = map (λ j, j * OMI_PAGE_SIZE) (seq 0 (S (length held / OMI_PAGE_SIZE))).
Proof.
  intros Hn. unfold fetch_conversations.
  destruct (fetch_loop_serve held rest n 0) as (evs & Heq & Hoff).
  - simpl. lia.
  - unfold OMI_PAGE_SIZE in *.
    pose proof (Nat.div_mod_eq (length held) 25).
    pose proof (Nat.mod_upper_bound (length held) 25). lia.
  - exists evs. split; [exact Heq|]. by rewrite Hoff, Nat.sub_0_r.
Qed.

End FetchProperties.

(** ** Runs on the sample platform *)

#[local] Existing Instance sample_platform.

(** C2, counterexample.  The title and the content of [a1] changed; the
    document is written under the new name, and the fifth Store call, the
    removal of the old file, fails.  The record is reported as synced and
    its entry is rewritten; the old file stays. *)
Lemma failed_remove_still_syncs :
  let '(r, w', evs) :=
    sync_conversation renamed_record state_before_rewrite
      (sample_world old_file [false; false; false; false; true]) in
  r = Some (true,
            one_entry "a1" (StateEntry (compute_content_hash renamed_record) "New.md" "New"))
  ∧ List.filter failed evs = [Store (OpRemove "/conversations/Old.md") false]
  ∧ files w' !! "/conversations/Old.md" = Some "old bytes".
Proof. vm_compute. split_and!; reflexivity. Qed.

(** C3, counterexample.  An entry without a filename whose title alone
    changed is classified TitleOnly, and the record is regenerated: one
    write, no move.  A record without an id and without an entry is
    classified New, and nothing is written for it. *)
Lemma classification_is_not_followed :
  (let c := renamed_record in
   let st := one_entry "a1" (StateEntry (compute_content_hash c) "" "Old") in
   let '(r, w', evs) := sync_conversation c st (sample_world ∅ []) in
   classify (current_title c) (compute_content_hash c) (conversations st !! id c)
   = TitleOnly
   ∧ count_events is_upload evs = 1
   ∧ count_events is_move evs = 0)
  ∧ (let c := sample_record "" "Chat" "hello" in
     let '(r, w', evs) := sync_conversation c empty_state (sample_world ∅ []) in
     classify (current_title c) (compute_content_hash c)
       (conversations empty_state !! id c) = New
     ∧ r = Some (false, empty_state)
     ∧ count_events is_upload evs = 0).
Proof. vm_compute. split_and!; reflexivity. Qed.



(** C5, the failing run.  Three records with the same title and the same
    creation date, synced from the empty state into an empty store: the
    second and the third end with the same filename, and the store holds
    two files for three records. *)
Lemma three_namesakes_share_a_filename :
  let fetched :=
    [sample_record "b1" "Chat" "one"; sample_record "b2" "Chat" "two";
     sample_record "b3" "Chat" "three"] in
  let '(r, w', evs) := run_sync_cycle (Some fetched) empty_state (sample_world ∅ []) in
  (filename <$> (r ≫= λ st, conversations st !! "b1")) = Some "Chat.md"
  ∧ (filename <$> (r ≫= λ st, conversations st !! "b2")) = Some "Chat_01152024.md"
  ∧ (filename <$> (r ≫= λ st, conversations st !! "b3")) = Some "Chat_01152024.md"
  ∧ size (files w') = 2
  ∧ count_events is_upload evs = 3.
Proof. vm_compute. split_and!; reflexivity. Qed.

(** C3, witness: a first sync of [a1] is a regeneration. *)
Lemma first_sync_regenerates :
  ∃ b st' w' evs,
    sync_conversation (sample_record "a1" "Chat" "hello") empty_state (sample_world ∅ [])
    = (Some (b, st'), w', evs)
    ∧ regenerated evs.
Proof.
  destruct (sync_conversation_follows_classification
              (sample_record "a1" "Chat" "hello") empty_state (sample_world ∅ []))
    as (b & st' & w' & evs & Hrun & _ & Hclass).
  - discriminate.
  - exists b, st', w', evs. split; [exact Hrun|exact Hclass].
Defined.

(** C4, witness: the cycle after the first sync of [a1]. *)
Lemma second_cycle_after_first_sync :
  ∃ st2 w2 evs2,
    run_sync_cycle (Some [sample_record "a1" "Chat" "hello"])
      (default empty_state first_cycle.1.1) first_cycle.1.2
    = (Some st2, w2, evs2)
    ∧ existsb mutates evs2 = false
    ∧ conversations st2 = conversations (default empty_state first_cycle.1.1)
    ∧ files w2 = files first_cycle.1.2.
Proof.
  apply (second_cycle_is_idle [sample_record "a1" "Chat" "hello"] empty_state
           (default empty_state first_cycle.1.1) (sample_world ∅ []) first_cycle.1.2
           first_cycle.2).
  - vm_compute. reflexivity.
  - constructor; [vm_compute; reflexivity|constructor].
  - refine (bool_decide_unpack _ _). vm_compute. exact I.
Defined.


(** C10, witness: the title of [a1] changed and its file is gone. *)
Lemma rename_without_file_updates_entry :
  ∃ st' evs,
    sync_conversation renamed_record state_before_rename (sample_world ∅ [])
    = (Some (true, st'), sample_world ∅ [], evs)
    ∧ existsb mutates evs = false
    ∧ conversations st' !! "a1"
      = Some (StateEntry (compute_content_hash renamed_record) "New.md" "New").
Proof.
  destruct (rename_of_missing_file_updates_state renamed_record state_before_rename
              (sample_world ∅ []) (sample_world ∅ [])
              (StateEntry (compute_content_hash renamed_record) "Old.md" "Old")
              [Store (OpExists "/conversations/Old.md") true])
    as (st' & evs & Hrun & Hquiet & _ & Hentry & _);
    try (vm_compute; reflexivity); try discriminate.
  exists st', evs. split_and!; [exact Hrun|exact Hquiet|exact Hentry].
Defined.


(** X4, witness: a fault-free cycle that fetches [a1] against a state that
    knows only [gone]. *)
Lemma cycle_replaces_gone_by_fetched :
  ∃ st' w' evs,
    run_sync_cycle (Some [sample_record "a1" "Chat" "hello"]) state_with_gone
      (sample_world gone_file [])
    = (Some st', w', evs)
    ∧ dom (conversations st') = omi_conv_ids [sample_record "a1" "Chat" "hello"]
    ∧ ([sample_record "a1" "Chat" "hello"] = [] →
       conversations st' = ∅ ∧ last_sync st' = last_sync state_with_gone)
    ∧ ([sample_record "a1" "Chat" "hello"] ≠ [] →
       last_sync st' = Some (isoformat (now (sample_world gone_file [])))).
Proof.
  apply (fault_free_cycle_tracks_fetched_ids [sample_record "a1" "Chat" "hello"]
           state_with_gone (sample_world gone_file [])); reflexivity.
Defined.

(** X5, witness: the same cycle under a shutdown request. *)
Lemma cycle_under_shutdown_keeps_gone :
  ∃ st' w' evs,
    run_sync_cycle (Some [sample_record "a1" "Chat" "hello"]) state_with_gone stopped_world
    = (Some st', w', evs)
    ∧ existsb mutates evs = false
    ∧ conversations st' = conversations state_with_gone
    ∧ files w' = files stopped_world.
Proof.
  apply (shutdown_cycle_changes_no_entry (Some [sample_record "a1" "Chat" "hello"])
           state_with_gone stopped_world).
  reflexivity.
Defined.

(** X9, witness: the first sync of [a1]. *)
Lemma first_sync_leaves_the_document :
  let c := sample_record "a1" "Chat" "hello" in
  ∃ b st' w' evs,
    sync_conversation c empty_state (sample_world ∅ []) = (Some (b, st'), w', evs)
    ∧ (b = true →
       ∃ e data,
         conversations st' !! id c = Some e
         ∧ omi_hash e = compute_content_hash c
         ∧ title e = current_title c
         ∧ Store (OpUpload (OUTPUT_DIR +:+ "/" +:+ filename e) data) true ∈ evs
         ∧ files w' !! (OUTPUT_DIR +:+ "/" +:+ filename e) = Some data)
    ∧ (b = false →
       st' = empty_state ∧ files w' = files (sample_world ∅ [])
       ∧ dirs w' = dirs (sample_world ∅ [])).
Proof.
  intros c.
  apply (regeneration_leaves_the_document_in_place c empty_state (sample_world ∅ [])).
  - discriminate.
  - reflexivity.
Defined.

(** X10, witness: a blank segment before a spoken one. *)
Lemma blank_segment_before_a_spoken_one :
  let c := sample_record "a1" "Chat" "hello" in
  let with_segments segs := Conversation (id c) (created_at c) (structured c) segs in
  ([] ++ [Segment 1 "hi"] ≠ [] →
   generate_markdown (with_segments ([] ++ Segment 0 "  " :: [Segment 1 "hi"])) "h"
     sample_clock
   = generate_markdown (with_segments ([] ++ [Segment 1 "hi"])) "h" sample_clock)
  ∧ build_body (with_segments [Segment 0 "  "])
    = build_body (with_segments []) +:+ newline +:+ newline +:+ "## Transcript" +:+ newline.
Proof.
  intros c.
  apply (blank_segments_leave_no_line c (Segment 0 "  ") [] [Segment 1 "hi"] "h"
           sample_clock).
  reflexivity.
Defined.

(** X11, witness: the first sync of [a1] finds no file to merge. *)
Lemma first_sync_uploads_as_generated :
  let c := sample_record "a1" "Chat" "hello" in
  let w := sample_world ∅ [] in
  ∃ b st' w' evs,
    regenerate c (compute_content_hash c) "Chat.md" None None empty_state w
    = (Some (b, st'), w', evs)
    ∧ List.filter is_upload evs
      = [Store (OpUpload (OUTPUT_DIR +:+ "/" +:+ "Chat.md")
                  (generate_markdown c (compute_content_hash c) (now w))) b].
Proof.
  intros c w.
  apply (regeneration_without_source_uploads_as_generated c (compute_content_hash c)
           "Chat.md" None None empty_state w).
  left. reflexivity.
Defined.

(** X12, witness: a request fails after one full page. *)
Lemma failure_after_a_full_page :
  (fetch_conversations sample_int
     ([Reply (Json (sample_page 25))] ++ Reply RequestException :: [])).1
  = Returned None.
Proof.
  apply (failed_request_discards_the_pages sample_int [Reply (Json (sample_page 25))] []).
  constructor; [vm_compute; lia|constructor].
Defined.

(** X13, witness: a shutdown request after one full page. *)
Lemma shutdown_after_a_full_page :
  ∃ evs,
    fetch_conversations sample_int
      ([Reply (Json (sample_page 25))] ++ ShutdownRequested :: [])
    = (Returned (Some (concat (pages_of [Reply (Json (sample_page 25))]))), evs)
    ∧ length (offsets_of evs) = length [Reply (Json (sample_page 25))].
Proof.
  apply (interrupted_fetch_returns_the_pages_so_far sample_int
           [Reply (Json (sample_page 25))] []).
  constructor; [vm_compute; lia|constructor].
Defined.

(** X14, witness: a [Retry-After] that holds a date. *)
Lemma retry_after_with_a_date_raises :
  (fetch_conversations sample_int
     ([] ++ Reply (TooManyRequests (Some "Wed, 21 Oct 2015 07:28:00 GMT")) :: [])).1
  = Raised.
Proof.
  apply (bad_retry_after_escapes sample_int [] []
           (Some "Wed, 21 Oct 2015 07:28:00 GMT")).
  - constructor.
  - left. reflexivity.
Defined.


(** X16, witness: a server that holds 26 records, asked twice. *)
Lemma two_requests_fetch_26_records :
  ∃ evs,
    fetch_conversations sample_int (map (serve (sample_page 26)) (seq 0 2) ++ [])
    = (Returned (Some (sample_page 26)), evs)
    ∧ offsets_of evs
      = map (λ j, j * OMI_PAGE_SIZE) (seq 0 (S (length (sample_page 26) / OMI_PAGE_SIZE))).
Proof.
  apply (pagination_round_trip sample_int (sample_page 26) [] 2).
  vm_compute. lia.
Defined.
